(** * Escrow-backed P2P trading: wallet ledger, offers and trades

    A shallow embedding of the P2P routes of the backend
    ([src/routes/p2p.ts]) together with the three Mongoose models they
    are written against ([models/P2POffer.ts], [models/P2PTrade.ts] and
    the Wallet model) and the address format of the wallet generator
    ([utils/walletGenerator.ts]), followed by the properties of the
    escrow lifecycle.

    Conventions of the embedding.
    - In the routes a number is a rational ([Q]).  The one place where
      the routes can leave the finite numbers, the division by a zero
      price, is modelled explicitly ([js_div]).  The rational model
      does not round: what is stated of it is what holds of each
      single operation of the program.  Where the rounding of a
      sequence of operations decides a property, the statements of the
      route are taken on binary64 numbers ([Double]).
    - The numbers of a request body are JSON numbers, and the page and
      the limit of a listing are numerals, the page from 1 on.  What
      the routes do with a string or nothing in the place of a number
      is not modelled.
    - An ObjectId is a natural number, a Date a number of milliseconds.
    - The document store is a record of lists, in insertion order;
      [findOne] is the first match.
    - A route handler maps the store to a response and a new store.  An
      exception escaping to the handler's [catch] is the response 500
      with the store as the writes before the exception left it.
    - Of Mongoose, three behaviours matter and are modelled: a
      document keeps only the paths its schema declares (strict mode,
      the default); [save()] and [create()] run the schema's validators
      on the whole document and throw when one fails; an update query
      ([findByIdAndUpdate], [findOneAndUpdate], [$inc]) runs none.
    - Requests are handled one at a time. *)

From Stdlib Require Import QArith Qminmax ZArith List String Ascii Bool Arith
  Lia Lqa Sorted.
From Stdlib Require Floats.
Import ListNotations.

Local Open Scope string_scope.
Local Open Scope Q_scope.

(** ** JavaScript values *)

Definition ObjectId := nat.
Definition Date := Z.

Bind Scope nat_scope with ObjectId.
Bind Scope Z_scope with Date.

(** [a <= b] and [a < b] on numbers. *)
Definition Qleb (a b : Q) : bool := Qle_bool a b.
Definition Qltb (a b : Q) : bool := negb (Qle_bool b a).

(** The quotient [a / b] of two finite numbers: finite unless [b] is
    zero, where JavaScript yields [NaN] for [0/0] and an infinity
    otherwise. *)
Inductive JsNumber : Type :=
| Finite (q : Q)
| Infinity (negative : bool)
| NotANumber.

Definition js_div (a b : Q) : JsNumber :=
  if Qeq_bool b 0
  then (if Qeq_bool a 0 then NotANumber else Infinity (Qltb a 0))
  else Finite (a / b).

(** [String.prototype.toUpperCase] on ASCII letters. *)
Definition upper_ascii (c : ascii) : ascii :=
  let n := nat_of_ascii c in
  if (97 <=? n)%nat && (n <=? 122)%nat then ascii_of_nat (n - 32) else c.

Fixpoint toUpperCase (s : string) : string :=
  match s with
  | EmptyString => EmptyString
  | String c r => String (upper_ascii c) (toUpperCase r)
  end.

(** [Array.prototype.includes] on an array of strings. *)
Definition includes (xs : list string) (x : string) : bool :=
  existsb (String.eqb x) xs.

(** Truthiness of an optional string of the request body. *)
Definition truthy (o : option string) : bool :=
  match o with
  | Some s => negb (s =? "")
  | None => false
  end.

(** Truthiness of an optional boolean property of a document. *)
Definition truthy_flag (o : option bool) : bool :=
  match o with
  | Some b => b
  | None => false
  end.

(** ** Documents *)

(** The Wallet model.  Address and key material, produced by the wallet
    generator, play no part in the ledger and are left out. *)
Module Wallet.
Record t : Type := mk {
  _id : ObjectId;
  userId : ObjectId;
  cryptocurrency : string;
  network : string;
  label : option string;
  isDefault : bool;
  balance : Q;
  lockedBalance : Q;
  totalDeposits : Q;
  totalWithdrawals : Q;
  isActive : bool
}.

Definition with_balances (w : t) (b l : Q) : t :=
  mk (_id w) (userId w) (cryptocurrency w) (network w) (label w)
     (isDefault w) b l (totalDeposits w) (totalWithdrawals w) (isActive w).

Definition with_isDefault (w : t) (d : bool) : t :=
  mk (_id w) (userId w) (cryptocurrency w) (network w) (label w)
     d (balance w) (lockedBalance w) (totalDeposits w)
     (totalWithdrawals w) (isActive w).

Definition with_label (w : t) (lb : option string) (d : bool) : t :=
  mk (_id w) (userId w) (cryptocurrency w) (network w) lb
     d (balance w) (lockedBalance w) (totalDeposits w)
     (totalWithdrawals w) (isActive w).

Definition credit_deposit (w : t) (a : Q) : t :=
  mk (_id w) (userId w) (cryptocurrency w) (network w) (label w)
     (isDefault w) (balance w + a) (lockedBalance w)
     (totalDeposits w + a) (totalWithdrawals w) (isActive w).

(** [lockedBalance += x; balance -= x]: the escrow lock. *)
Definition lock (w : t) (x : Q) : t :=
  with_balances w (balance w - x) (lockedBalance w + x).

(** [balance += x]: the release into the recipient's wallet. *)
Definition release (w : t) (x : Q) : t :=
  with_balances w (balance w + x) (lockedBalance w).

(** [balance += x; lockedBalance -= x]: the return of an escrow. *)
Definition unlock (w : t) (x : Q) : t :=
  with_balances w (balance w + x) (lockedBalance w - x).

(** The validators of [walletSchema] as [save()] runs them: on every
    path of the document, those loaded from the database and left
    untouched included.  They are [required] on the two strings,
    [maxlength: 50] on the label and [min: 0] on the four amounts. *)
Definition validate (w : t) : bool :=
  negb (cryptocurrency w =? "") && negb (network w =? "")
  && match label w with
     | Some l => (String.length l <=? 50)%nat
     | None => true
     end
  && Qleb 0 (balance w) && Qleb 0 (lockedBalance w)
  && Qleb 0 (totalDeposits w) && Qleb 0 (totalWithdrawals w).
End Wallet.

(** The P2POffer model. *)
Module P2POffer.
Record t : Type := mk {
  _id : ObjectId;
  userId : ObjectId;
  type : string;
  cryptocurrency : string;
  fiatCurrency : string;
  amount : Q;
  price : Q;
  minLimit : Q;
  maxLimit : Q;
  paymentMethods : list string;
  terms : option string;
  status : string;
  completedAt : option Date;
  expiresAt : Date;
  createdAt : Date
}.

Definition with_status (o : t) (s : string) : t :=
  mk (_id o) (userId o) (type o) (cryptocurrency o) (fiatCurrency o)
     (amount o) (price o) (minLimit o) (maxLimit o) (paymentMethods o)
     (terms o) s (completedAt o) (expiresAt o) (createdAt o).

Definition complete (o : t) (now : Date) : t :=
  mk (_id o) (userId o) (type o) (cryptocurrency o) (fiatCurrency o)
     (amount o) (price o) (minLimit o) (maxLimit o) (paymentMethods o)
     (terms o) "completed" (Some now) (expiresAt o) (createdAt o).

Definition with_amount (o : t) (a : Q) : t :=
  mk (_id o) (userId o) (type o) (cryptocurrency o) (fiatCurrency o)
     a (price o) (minLimit o) (maxLimit o) (paymentMethods o)
     (terms o) (status o) (completedAt o) (expiresAt o) (createdAt o).

(** The validators of [p2pOfferSchema] that [P2POffer.create] runs:
    the [enum] of [type], the [min: 0] of the four numbers, the
    required strings, the length of [terms], and the pre-save hook on
    the limits. *)
Definition validate (o : t) : bool :=
  includes ["buy"; "sell"] (type o)
  && match terms o with
     | Some s => (String.length s <=? 1000)%nat
     | None => true
     end
  && negb (cryptocurrency o =? "") && negb (fiatCurrency o =? "")
  && Qleb 0 (amount o) && Qleb 0 (price o)
  && Qleb 0 (minLimit o) && Qleb 0 (maxLimit o)
  && forallb (fun m => negb (m =? "")) (paymentMethods o)
  && negb (Qltb (maxLimit o) (minLimit o)).
End P2POffer.

(** The P2PTrade model.  The record has the properties of the
    [IP2PTrade] interface; which of them a document keeps is decided by
    the schema (below). *)
Module P2PTrade.
Record t : Type := mk {
  _id : ObjectId;
  offerId : ObjectId;
  buyerId : ObjectId;
  sellerId : ObjectId;
  cryptocurrency : string;
  fiatCurrency : string;
  amount : Q;
  price : Q;
  totalFiat : Q;
  paymentMethod : string;
  status : string;
  escrowAmount : Q;
  escrowHeld : option bool;
  paymentProof : option string;
  payoutMethod : option string;
  payoutDetails : option string;
  notes : option string;
  completedAt : option Date;
  cancelledAt : option Date
}.

(** The validators of [p2pTradeSchema] run by [P2PTrade.create]. *)
Definition validate (d : t) : bool :=
  negb (cryptocurrency d =? "") && negb (fiatCurrency d =? "")
  && negb (paymentMethod d =? "")
  && Qleb 0 (amount d) && Qleb 0 (price d)
  && Qleb 0 (totalFiat d) && Qleb 0 (escrowAmount d).
End P2PTrade.

(** The Deposit model, as far as the ledger is concerned. *)
Module Deposit.
Record t : Type := mk {
  _id : ObjectId;
  userId : ObjectId;
  walletId : ObjectId;
  amount : Q;
  txHash : option string;
  status : string
}.

Definition confirm (d : t) : t :=
  mk (_id d) (userId d) (walletId d) (amount d) (txHash d) "confirmed".
End Deposit.

(** A notification, reduced to its recipient and the [action] tag of
    its payload. *)
Record Notification : Type := {
  n_userId : ObjectId;
  n_action : string
}.

(** ** The document store *)

Record Store : Type := {
  wallets : list Wallet.t;
  offers : list P2POffer.t;
  trades : list P2PTrade.t;
  deposits : list Deposit.t;
  notifications : list Notification;
  admins : list ObjectId;
  next_id : ObjectId
}.

Definition empty_store (adm : list ObjectId) : Store :=
  {| wallets := []; offers := []; trades := []; deposits := [];
     notifications := []; admins := adm; next_id := 0%nat |}.

Definition set_wallets (db : Store) (ws : list Wallet.t) : Store :=
  {| wallets := ws; offers := offers db; trades := trades db;
     deposits := deposits db; notifications := notifications db;
     admins := admins db; next_id := next_id db |}.

Definition set_offers (db : Store) (os : list P2POffer.t) : Store :=
  {| wallets := wallets db; offers := os; trades := trades db;
     deposits := deposits db; notifications := notifications db;
     admins := admins db; next_id := next_id db |}.

Definition set_trades (db : Store) (ts : list P2PTrade.t) : Store :=
  {| wallets := wallets db; offers := offers db; trades := ts;
     deposits := deposits db; notifications := notifications db;
     admins := admins db; next_id := next_id db |}.

Definition set_deposits (db : Store) (ds : list Deposit.t) : Store :=
  {| wallets := wallets db; offers := offers db; trades := trades db;
     deposits := ds; notifications := notifications db;
     admins := admins db; next_id := next_id db |}.

(** [Notification.create]. *)
Definition notify (db : Store) (ns : list Notification) : Store :=
  {| wallets := wallets db; offers := offers db; trades := trades db;
     deposits := deposits db; notifications := notifications db ++ ns;
     admins := admins db; next_id := next_id db |}.

(** A new document takes the next identifier. *)
Definition bump (db : Store) : Store :=
  {| wallets := wallets db; offers := offers db; trades := trades db;
     deposits := deposits db; notifications := notifications db;
     admins := admins db; next_id := S (next_id db) |}.

(** The outcome of a request: [res.status(code).json(body)], or an
    error status with its message. *)
Inductive Response (A : Type) : Type :=
| Json (code : nat) (body : A)
| Fail (code : nat) (message : string).

Arguments Json {A} code body.
Arguments Fail {A} code message.

(** *** Wallet collection *)

(** The pre-save hook of [walletSchema]: saving a default wallet clears
    [isDefault] on the user's other wallets of that cryptocurrency. *)
Definition wallet_pre_save (w : Wallet.t) (ws : list Wallet.t) : list Wallet.t :=
  if Wallet.isDefault w then
    map (fun x =>
           if (Wallet.userId x =? Wallet.userId w)%nat
              && (Wallet.cryptocurrency x =? Wallet.cryptocurrency w)
              && negb (Wallet._id x =? Wallet._id w)%nat
           then Wallet.with_isDefault x false else x) ws
  else ws.

Definition replace_wallet (w : Wallet.t) (ws : list Wallet.t) : list Wallet.t :=
  map (fun x => if (Wallet._id x =? Wallet._id w)%nat then w else x) ws.

(** [wallet.save()] on a loaded document changed into [new]:
    validation, then the pre-save hook, then the write.  [None] is the
    validation error thrown. *)
Definition Wallet_save (new : Wallet.t) (db : Store) : option Store :=
  if Wallet.validate new
  then Some (set_wallets db (replace_wallet new (wallet_pre_save new (wallets db))))
  else None.

(** *** Trade collection: the schema decides what a document keeps *)

(** A schema, as the list of its paths. *)
Definition Schema := list string.

(** [p2pTradeSchema] of models/P2PTrade.ts. *)
Definition p2pTradeSchema : Schema :=
  ["offerId"; "buyerId"; "sellerId"; "cryptocurrency"; "fiatCurrency";
   "amount"; "price"; "totalFiat"; "paymentMethod"; "status";
   "escrowAmount"; "paymentProof"; "notes"; "completedAt"; "cancelledAt"].

(** The properties of the [IP2PTrade] interface of the same file. *)
Definition IP2PTrade : Schema :=
  ["offerId"; "buyerId"; "sellerId"; "cryptocurrency"; "fiatCurrency";
   "amount"; "price"; "totalFiat"; "paymentMethod"; "status";
   "escrowAmount"; "escrowHeld"; "paymentProof"; "payoutMethod";
   "payoutDetails"; "notes"; "completedAt"; "cancelledAt"].

Definition declares (s : Schema) (path : string) : bool := includes s path.

(** Strict mode (the default of a schema): a value for a path the
    schema does not declare is dropped, silently. *)
Definition strict {A : Type} (s : Schema) (path : string) (v : option A) : option A :=
  if declares s path then v else None.

(** A document as the model constructs or hydrates it under schema [s].
    The paths of the required properties are declared by every schema
    considered here; only the optional properties are filtered. *)
Definition cast (s : Schema) (d : P2PTrade.t) : P2PTrade.t :=
  P2PTrade.mk
    (P2PTrade._id d) (P2PTrade.offerId d) (P2PTrade.buyerId d)
    (P2PTrade.sellerId d) (P2PTrade.cryptocurrency d)
    (P2PTrade.fiatCurrency d) (P2PTrade.amount d) (P2PTrade.price d)
    (P2PTrade.totalFiat d) (P2PTrade.paymentMethod d) (P2PTrade.status d)
    (P2PTrade.escrowAmount d)
    (strict s "escrowHeld" (P2PTrade.escrowHeld d))
    (strict s "paymentProof" (P2PTrade.paymentProof d))
    (strict s "payoutMethod" (P2PTrade.payoutMethod d))
    (strict s "payoutDetails" (P2PTrade.payoutDetails d))
    (strict s "notes" (P2PTrade.notes d))
    (strict s "completedAt" (P2PTrade.completedAt d))
    (strict s "cancelledAt" (P2PTrade.cancelledAt d)).

(** The update document built by the status route. *)
Record UpdateData : Type := {
  u_status : string;
  u_paymentProof : option string;
  u_notes : option string;
  u_payoutMethod : option string;
  u_payoutDetails : option string;
  u_completedAt : option Date;
  u_cancelledAt : option Date;
  u_escrowHeld : option bool
}.

(** [$set] of one optional path under schema [s]. *)
Definition assign {A : Type} (s : Schema) (path : string)
  (v : option A) (cur : option A) : option A :=
  match strict s path v with
  | Some x => Some x
  | None => cur
  end.

Definition apply_update (s : Schema) (u : UpdateData) (d : P2PTrade.t) : P2PTrade.t :=
  P2PTrade.mk
    (P2PTrade._id d) (P2PTrade.offerId d) (P2PTrade.buyerId d)
    (P2PTrade.sellerId d) (P2PTrade.cryptocurrency d)
    (P2PTrade.fiatCurrency d) (P2PTrade.amount d) (P2PTrade.price d)
    (P2PTrade.totalFiat d) (P2PTrade.paymentMethod d) (u_status u)
    (P2PTrade.escrowAmount d)
    (assign s "escrowHeld" (u_escrowHeld u) (P2PTrade.escrowHeld d))
    (assign s "paymentProof" (u_paymentProof u) (P2PTrade.paymentProof d))
    (assign s "payoutMethod" (u_payoutMethod u) (P2PTrade.payoutMethod d))
    (assign s "payoutDetails" (u_payoutDetails u) (P2PTrade.payoutDetails d))
    (assign s "notes" (u_notes u) (P2PTrade.notes d))
    (assign s "completedAt" (u_completedAt u) (P2PTrade.completedAt d))
    (assign s "cancelledAt" (u_cancelledAt u) (P2PTrade.cancelledAt d)).

(** ** The routes *)

(** The body of [PATCH /trades/:id/status]. *)
Record StatusBody : Type := {
  b_status : string;
  b_paymentProof : option string;
  b_notes : option string;
  b_payoutMethod : option string;
  b_payoutDetails : option string
}.

Definition validStatuses : list string :=
  ["pending"; "payment_sent"; "payment_received"; "crypto_released";
   "completed"; "cancelled"; "disputed"].

Definition supportedCryptos : list string :=
  ["BTC"; "ETH"; "USDT"; "BNB"; "ADA"; "XRP"; "SOL"; "DOT"; "DOGE"; "AVAX"].

Definition P2POffer_findById (id : ObjectId) (db : Store) : option P2POffer.t :=
  find (fun o => (P2POffer._id o =? id)%nat) (offers db).

(** [offer.save()]: the loaded offer replaces the stored one. *)
Definition P2POffer_save (o : P2POffer.t) (db : Store) : Store :=
  set_offers db
    (map (fun x => if (P2POffer._id x =? P2POffer._id o)%nat then o else x)
         (offers db)).

(** The end of the accept route: the offer is marked completed when
    its amount does not exceed the crypto amount [x] of the trade, and
    is decremented by [x] otherwise. *)
Definition consumed (offer : P2POffer.t) (x : Q) (now : Date) : P2POffer.t :=
  if Qleb (P2POffer.amount offer) x
  then P2POffer.complete offer now
  else P2POffer.with_amount offer (P2POffer.amount offer - x).

(** [Wallet.findOne({ userId, cryptocurrency, balance: { $gte:
    tradeAmount }, isActive: true })] of the accept route. *)
Definition Wallet_findFunded (holder : ObjectId) (crypto : string)
  (tradeAmount : JsNumber) (db : Store) : option Wallet.t :=
  find (fun w =>
          (Wallet.userId w =? holder)%nat
          && (Wallet.cryptocurrency w =? crypto)
          && match tradeAmount with
             | Finite x => Qleb x (Wallet.balance w)
             | Infinity negative => negative
             | NotANumber => false
             end
          && Wallet.isActive w)
       (wallets db).

(** [Wallet.findOne({ userId, cryptocurrency })] of the status route. *)
Definition Wallet_findOne (user : ObjectId) (crypto : string) (db : Store)
  : option Wallet.t :=
  find (fun w => (Wallet.userId w =? user)%nat
                 && (Wallet.cryptocurrency w =? crypto))
       (wallets db).

(** The block that both branches of the accept route run on the
    wallets of [holder]: find a funded wallet or refuse with [message],
    lock the crypto amount in it and save it.  The result is the error
    response, or the amount and the store after the lock. *)
Definition lock_in_escrow (holder : ObjectId) (message : string)
  (crypto : string) (tradeAmount : JsNumber) (db : Store)
  : (nat * string) + (Q * Store) :=
  match tradeAmount with
  | NotANumber => inl (500%nat, "Cast to Number failed")
  | _ =>
    match Wallet_findFunded holder crypto tradeAmount db with
    | None => inl (400%nat, message)
    | Some wallet =>
      match tradeAmount with
      | Finite x =>
        match Wallet_save (Wallet.lock wallet x) db with
        | None => inl (500%nat, "Wallet validation failed")
        | Some db1 => inr (x, db1)
        end
      | _ => inl (500%nat, "Wallet validation failed")
      end
    end
  end.

Section Routes.

(** The routes are written against the P2PTrade model; its schema is
    the parameter. *)
Variable tradeSchema : Schema.

(** [P2PTrade.create]: the document is cast by the schema (with the
    [uppercase] setters and the default status), validated and
    inserted.  [None] is the validation error thrown. *)
Definition P2PTrade_create (offer : P2POffer.t) (buyer seller : ObjectId)
  (tradeAmount totalFiat : Q) (paymentMethod : string) (db : Store)
  : option (P2PTrade.t * Store) :=
  let doc := cast tradeSchema
    (P2PTrade.mk (next_id db) (P2POffer._id offer) buyer seller
       (toUpperCase (P2POffer.cryptocurrency offer))
       (toUpperCase (P2POffer.fiatCurrency offer))
       tradeAmount (P2POffer.price offer) totalFiat paymentMethod
       "pending" tradeAmount (Some true) None None None None None None) in
  if P2PTrade.validate doc
  then Some (doc, bump (set_trades db (trades db ++ [doc])))
  else None.

(** [P2PTrade.findById]: the stored document, hydrated by the schema. *)
Definition P2PTrade_findById (id : ObjectId) (db : Store) : option P2PTrade.t :=
  option_map (cast tradeSchema)
    (find (fun t => (P2PTrade._id t =? id)%nat) (trades db)).

(** [P2PTrade.findByIdAndUpdate(id, updateData, { new: true })]. *)
Definition P2PTrade_findByIdAndUpdate (id : ObjectId) (u : UpdateData)
  (db : Store) : Store :=
  set_trades db
    (map (fun t => if (P2PTrade._id t =? id)%nat
                   then apply_update tradeSchema u t else t)
         (trades db)).

(** The notifications of a started trade: buyer, seller, every admin. *)
Definition trade_started (t : P2PTrade.t) (db : Store) : list Notification :=
  {| n_userId := P2PTrade.buyerId t; n_action := "p2p_trade_started" |}
  :: {| n_userId := P2PTrade.sellerId t; n_action := "p2p_trade_started" |}
  :: map (fun a => {| n_userId := a; n_action := "p2p_trade_admin" |})
         (admins db).

(** [POST /offers/:id/accept] for the authenticated [user], with the
    body [{ amount, paymentMethod }]. *)
Definition acceptOffer (now : Date) (user id : ObjectId) (amount : Q)
  (paymentMethod : string) (db : Store) : Response P2PTrade.t * Store :=
  match P2POffer_findById id db with
  | None => (Fail 404 "Offer not found", db)
  | Some offer =>
    if negb (P2POffer.status offer =? "active") then
      (Fail 400 "Offer is not active", db)
    else if (P2POffer.userId offer =? user)%nat then
      (Fail 400 "Cannot accept your own offer", db)
    else if Qltb amount (P2POffer.minLimit offer)
            || Qltb (P2POffer.maxLimit offer) amount then
      (Fail 400 "Amount is outside offer limits", db)
    else if negb (includes (P2POffer.paymentMethods offer) paymentMethod) then
      (Fail 400 "Payment method not supported by this offer", db)
    else
      let tradeAmount := js_div amount (P2POffer.price offer) in
      let totalFiat := amount in
      let escrow :=
        if P2POffer.type offer =? "sell" then
          lock_in_escrow user
            ("You don't have sufficient " ++ P2POffer.cryptocurrency offer
             ++ " balance in your wallet. Please deposit funds first.")
            (P2POffer.cryptocurrency offer) tradeAmount db
        else
          lock_in_escrow (P2POffer.userId offer)
            "Seller does not have sufficient balance"
            (P2POffer.cryptocurrency offer) tradeAmount db in
      match escrow with
      | inl (code, message) => (Fail code message, db)
      | inr (x, db1) =>
        match P2PTrade_create offer
                (if P2POffer.type offer =? "sell"
                 then user else P2POffer.userId offer)
                (if P2POffer.type offer =? "sell"
                 then P2POffer.userId offer else user)
                x totalFiat paymentMethod db1 with
        | None => (Fail 500 "P2PTrade validation failed", db1)
        | Some (trade, db2) =>
          let db3 := P2POffer_save (consumed offer x now) db2 in
          (Json 201 trade, notify db3 (trade_started trade db3))
        end
      end
  end.

(** The update document of the status route before the escrow
    handling: the status and the truthy extras of the body. *)
Definition updateData_of (b : StatusBody) : UpdateData :=
  {| u_status := b_status b;
     u_paymentProof := if truthy (b_paymentProof b) then b_paymentProof b else None;
     u_notes := if truthy (b_notes b) then b_notes b else None;
     u_payoutMethod := if truthy (b_payoutMethod b) then b_payoutMethod b else None;
     u_payoutDetails := if truthy (b_payoutDetails b) then b_payoutDetails b else None;
     u_completedAt := None;
     u_cancelledAt := None;
     u_escrowHeld := None |}.

Definition set_completedAt (u : UpdateData) (now : Date) : UpdateData :=
  {| u_status := u_status u; u_paymentProof := u_paymentProof u;
     u_notes := u_notes u; u_payoutMethod := u_payoutMethod u;
     u_payoutDetails := u_payoutDetails u; u_completedAt := Some now;
     u_cancelledAt := u_cancelledAt u; u_escrowHeld := u_escrowHeld u |}.

Definition set_cancelledAt (u : UpdateData) (now : Date) : UpdateData :=
  {| u_status := u_status u; u_paymentProof := u_paymentProof u;
     u_notes := u_notes u; u_payoutMethod := u_payoutMethod u;
     u_payoutDetails := u_payoutDetails u; u_completedAt := u_completedAt u;
     u_cancelledAt := Some now; u_escrowHeld := u_escrowHeld u |}.

Definition set_escrowHeld (u : UpdateData) (b : bool) : UpdateData :=
  {| u_status := u_status u; u_paymentProof := u_paymentProof u;
     u_notes := u_notes u; u_payoutMethod := u_payoutMethod u;
     u_payoutDetails := u_payoutDetails u; u_completedAt := u_completedAt u;
     u_cancelledAt := u_cancelledAt u; u_escrowHeld := Some b |}.

(** The end of the status route: the update is written and the updated
    trade is the response. *)
Definition respond_updated (id : ObjectId) (u : UpdateData) (db : Store)
  : Response (option P2PTrade.t) * Store :=
  let db' := P2PTrade_findByIdAndUpdate id u db in
  let updatedTrade := P2PTrade_findById id db' in
  (Json 200 updatedTrade, db').

(** [PATCH /trades/:id/status] for the authenticated [user]. *)
Definition updateTradeStatus (now : Date) (user id : ObjectId)
  (body : StatusBody) (db : Store) : Response (option P2PTrade.t) * Store :=
  match P2PTrade_findById id db with
  | None => (Fail 404 "Trade not found", db)
  | Some trade =>
    if negb (P2PTrade.buyerId trade =? user)%nat
       && negb (P2PTrade.sellerId trade =? user)%nat then
      (Fail 403 "Not authorized", db)
    else if negb (includes validStatuses (b_status body)) then
      (Fail 400 "Invalid status", db)
    else
      let updateData := updateData_of body in
      if b_status body =? "completed" then
        let updateData := set_completedAt updateData now in
        if truthy_flag (P2PTrade.escrowHeld trade) then
          match Wallet_findOne (P2PTrade.buyerId trade)
                  (P2PTrade.cryptocurrency trade) db with
          | Some buyerWallet =>
            match Wallet_save
                    (Wallet.release buyerWallet (P2PTrade.amount trade)) db with
            | None => (Fail 500 "Server error", db)
            | Some db1 => respond_updated id (set_escrowHeld updateData false) db1
            end
          | None => respond_updated id (set_escrowHeld updateData false) db
          end
        else respond_updated id updateData db
      else if b_status body =? "cancelled" then
        let updateData := set_cancelledAt updateData now in
        if truthy_flag (P2PTrade.escrowHeld trade) then
          match Wallet_findOne (P2PTrade.sellerId trade)
                  (P2PTrade.cryptocurrency trade) db with
          | Some sellerWallet =>
            match Wallet_save
                    (Wallet.unlock sellerWallet (P2PTrade.amount trade)) db with
            | None => (Fail 500 "Server error", db)
            | Some db1 => respond_updated id (set_escrowHeld updateData false) db1
            end
          | None => respond_updated id (set_escrowHeld updateData false) db
          end
        else respond_updated id updateData db
      else respond_updated id updateData db
  end.

End Routes.

(** *** Offers *)

(** The body of [POST /offers]. *)
Record OfferBody : Type := {
  o_type : string;
  o_cryptocurrency : string;
  o_fiatCurrency : string;
  o_amount : Q;
  o_price : Q;
  o_minLimit : Q;
  o_maxLimit : Q;
  o_paymentMethods : option (list string);
  o_terms : option string;
  o_expiresInHours : Z
}.

(** [!x] on a number and on a string of the body. *)
Definition falsy_number (x : Q) : bool := Qeq_bool x 0.
Definition falsy_string (x : string) : bool := x =? "".

(** [POST /offers] for the authenticated [user]. *)
Definition createOffer (now : Date) (user : ObjectId) (body : OfferBody)
  (db : Store) : Response P2POffer.t * Store :=
  match o_paymentMethods body with
  | None => (Fail 400 "Missing required fields", db)
  | Some paymentMethods =>
    if falsy_string (o_type body) || falsy_string (o_cryptocurrency body)
       || falsy_string (o_fiatCurrency body) || falsy_number (o_amount body)
       || falsy_number (o_price body) || falsy_number (o_minLimit body)
       || falsy_number (o_maxLimit body) then
      (Fail 400 "Missing required fields", db)
    else if Qltb (o_maxLimit body) (o_minLimit body) then
      (Fail 400 "Maximum limit must be greater than minimum limit", db)
    else if Qltb (o_amount body) (o_minLimit body)
            || Qltb (o_maxLimit body) (o_amount body) then
      (Fail 400 "Amount must be within limits", db)
    else if negb (includes supportedCryptos (toUpperCase (o_cryptocurrency body))) then
      (Fail 400 "Unsupported cryptocurrency", db)
    else
      let offer :=
        P2POffer.mk (next_id db) user (o_type body)
          (toUpperCase (o_cryptocurrency body))
          (toUpperCase (o_fiatCurrency body))
          (o_amount body) (o_price body) (o_minLimit body) (o_maxLimit body)
          paymentMethods (o_terms body) "active" None
          (now + o_expiresInHours body * 60 * 60 * 1000)%Z now in
      if P2POffer.validate offer then
        (Json 201 offer,
         notify (bump (set_offers db (offers db ++ [offer])))
           [{| n_userId := user; n_action := "p2p_offer_created" |}])
      else (Fail 500 "P2POffer validation failed", db)
  end.

(** [PATCH /offers/:id/status]: the owner sets the status; an update
    query runs no validator. *)
Definition updateOfferStatus (user id : ObjectId) (status : string)
  (db : Store) : Response P2POffer.t * Store :=
  match find (fun o => (P2POffer._id o =? id)%nat
                       && (P2POffer.userId o =? user)%nat) (offers db) with
  | None => (Fail 404 "Offer not found", db)
  | Some offer =>
    let offer' := P2POffer.with_status offer status in
    (Json 200 offer', P2POffer_save offer' db)
  end.

(** The query of [GET /offers]; an absent or falsy parameter is [None]. *)
Record OfferQuery : Type := {
  q_type : option string;
  q_cryptocurrency : option string;
  q_fiatCurrency : option string;
  q_paymentMethod : option string;
  q_minAmount : option Q;
  q_maxAmount : option Q;
  q_page : positive;
  q_limit : N
}.

Definition matches_string (f : option string) (v : string) : bool :=
  match f with
  | Some x => if truthy f then x =? v else true
  | None => true
  end.

(** The filter built by [GET /offers]: [{ status: 'active' }] and one
    condition for each parameter given. *)
Definition offer_filter (q : OfferQuery) (o : P2POffer.t) : bool :=
  (P2POffer.status o =? "active")
  && matches_string (q_type q) (P2POffer.type o)
  && matches_string (option_map toUpperCase (q_cryptocurrency q))
       (P2POffer.cryptocurrency o)
  && matches_string (option_map toUpperCase (q_fiatCurrency q))
       (P2POffer.fiatCurrency o)
  && match q_paymentMethod q with
     | Some m => if truthy (q_paymentMethod q)
                 then includes (P2POffer.paymentMethods o) m else true
     | None => true
     end
  && match q_minAmount q with
     | Some m => Qleb m (P2POffer.amount o)
     | None => true
     end
  && match q_maxAmount q with
     | Some m => Qleb (P2POffer.amount o) m
     | None => true
     end.

(** [sort({ createdAt: -1 })]: newest first. *)
Fixpoint insert_newest (o : P2POffer.t) (l : list P2POffer.t) : list P2POffer.t :=
  match l with
  | [] => [o]
  | x :: r =>
    if (P2POffer.createdAt x <? P2POffer.createdAt o)%Z
    then o :: l else x :: insert_newest o r
  end.

Definition newest_first (l : list P2POffer.t) : list P2POffer.t :=
  fold_right insert_newest [] l.

Record OfferPage : Type := {
  p_offers : list P2POffer.t;
  p_page : positive;
  p_limit : N;
  p_total : nat
}.

(** [.limit(n)] of a query: a limit of 0 is no limit. *)
Definition limited {A : Type} (n : nat) (l : list A) : list A :=
  if (n =? 0)%nat then l else firstn n l.

(** [GET /offers], for a page from 1 on and a limit from 0 on. *)
Definition listOffers (q : OfferQuery) (db : Store) : OfferPage :=
  let found := filter (offer_filter q) (offers db) in
  let limit := N.to_nat (q_limit q) in
  let skip := ((Pos.to_nat (q_page q) - 1) * limit)%nat in
  {| p_offers := limited limit (skipn skip (newest_first found));
     p_page := q_page q;
     p_limit := q_limit q;
     p_total := List.length found |}.

(** *** Wallets and deposits *)

Record WalletBody : Type := {
  wb_cryptocurrency : string;
  wb_network : string;
  wb_label : option string;
  wb_isDefault : bool
}.

Definition same_wallet_key (user : ObjectId) (crypto network : string)
  (w : Wallet.t) : bool :=
  (Wallet.userId w =? user)%nat && (Wallet.cryptocurrency w =? crypto)
  && (Wallet.network w =? network).

(** [POST /wallets].  The generated address is a hash of user,
    cryptocurrency and network and carries a unique index: a second
    wallet of the same key is refused by the insert, after the pre-save
    hook has run. *)
Definition createWallet (user : ObjectId) (body : WalletBody) (db : Store)
  : Response Wallet.t * Store :=
  if falsy_string (wb_cryptocurrency body) || falsy_string (wb_network body) then
    (Fail 400 "Cryptocurrency and network are required", db)
  else
    let crypto := toUpperCase (wb_cryptocurrency body) in
    if negb (includes supportedCryptos crypto) then
      (Fail 400 "Unsupported cryptocurrency", db)
    else if existsb (fun w => same_wallet_key user crypto (wb_network body) w
                              && Wallet.isActive w) (wallets db) then
      (Fail 400 "You already have a wallet for this cryptocurrency and network", db)
    else
      let wallet :=
        Wallet.mk (next_id db) user crypto (wb_network body) (wb_label body)
          (wb_isDefault body) 0 0 0 0 true in
      if match wb_label body with
         | Some l => (50 <? String.length l)%nat
         | None => false
         end then
        (Fail 500 "Wallet validation failed", db)
      else
        let db1 := set_wallets db (wallet_pre_save wallet (wallets db)) in
        if existsb (same_wallet_key user crypto (wb_network body)) (wallets db) then
          (Fail 500 "E11000 duplicate key error", db1)
        else
          (Json 201 wallet,
           notify (bump (set_wallets db1 (wallets db1 ++ [wallet])))
             [{| n_userId := user; n_action := "wallet_created" |}]).

(** [PATCH /wallets/:id] with the body [{ label, isDefault }]. *)
Definition updateWallet (user id : ObjectId) (label : option string)
  (isDefault : option bool) (db : Store) : Response Wallet.t * Store :=
  match find (fun w => (Wallet._id w =? id)%nat
                       && (Wallet.userId w =? user)%nat) (wallets db) with
  | None => (Fail 404 "Wallet not found", db)
  | Some w =>
    let w' := Wallet.with_label w
                (match label with Some l => Some l | None => Wallet.label w end)
                (match isDefault with Some d => d | None => Wallet.isDefault w end) in
    (Json 200 w', set_wallets db (replace_wallet w' (wallets db)))
  end.

(** [DELETE /wallets/:id]. *)
Definition deleteWallet (user id : ObjectId) (db : Store)
  : Response bool * Store :=
  match find (fun w => (Wallet._id w =? id)%nat
                       && (Wallet.userId w =? user)%nat) (wallets db) with
  | None => (Fail 404 "Wallet not found", db)
  | Some wallet =>
    if Qltb 0 (Wallet.balance wallet) || Qltb 0 (Wallet.lockedBalance wallet) then
      (Fail 400 "Cannot delete wallet with balance", db)
    else
      (Json 200 true,
       set_wallets db
         (filter (fun w => negb (Wallet._id w =? id)%nat) (wallets db)))
  end.

(** [POST /deposits] with the body [{ walletId, amount, txHash }]: the
    deposit is created pending; its confirmation is scheduled. *)
Definition createDeposit (user walletId : ObjectId) (amount : Q)
  (txHash : option string) (db : Store) : Response Deposit.t * Store :=
  if falsy_number amount then
    (Fail 400 "Wallet ID and amount are required", db)
  else
    match find (fun w => (Wallet._id w =? walletId)%nat
                         && (Wallet.userId w =? user)%nat) (wallets db) with
    | None => (Fail 404 "Wallet not found", db)
    | Some wallet =>
      if truthy txHash
         && existsb (fun d => match Deposit.txHash d, txHash with
                              | Some a, Some b => a =? b
                              | _, _ => false
                              end
                              && (Deposit.userId d =? user)%nat) (deposits db) then
        (Fail 400 "Deposit with this transaction hash already exists", db)
      else if Qltb amount 0 then
        (Fail 500 "Deposit validation failed", db)
      else
        let deposit :=
          Deposit.mk (next_id db) user (Wallet._id wallet) amount txHash
            "pending" in
        (Json 201 deposit, bump (set_deposits db (deposits db ++ [deposit])))
    end.

(** The scheduled confirmation of a pending deposit: the deposit is
    marked confirmed and the wallet credited by an [$inc]. *)
Definition confirmDeposit (depositId : ObjectId) (db : Store) : Store :=
  match find (fun d => (Deposit._id d =? depositId)%nat
                       && (Deposit.status d =? "pending")) (deposits db) with
  | None => db
  | Some deposit =>
    let db1 :=
      set_deposits db
        (map (fun d => if (Deposit._id d =? depositId)%nat
                       then Deposit.confirm d else d) (deposits db)) in
    set_wallets db1
      (map (fun w => if (Wallet._id w =? Deposit.walletId deposit)%nat
                     then Wallet.credit_deposit w (Deposit.amount deposit)
                     else w) (wallets db1))
  end.

(** ** Sequences of operations *)

Inductive Operation : Type :=
| CreateOffer (now : Date) (user : ObjectId) (body : OfferBody)
| UpdateOfferStatus (user id : ObjectId) (status : string)
| AcceptOffer (now : Date) (user id : ObjectId) (amount : Q)
    (paymentMethod : string)
| UpdateTradeStatus (now : Date) (user id : ObjectId) (body : StatusBody)
| CreateWallet (user : ObjectId) (body : WalletBody)
| UpdateWallet (user id : ObjectId) (label : option string)
    (isDefault : option bool)
| DeleteWallet (user id : ObjectId)
| CreateDeposit (user walletId : ObjectId) (amount : Q)
    (txHash : option string)
| ConfirmDeposit (depositId : ObjectId).

(** The store after one operation, whatever the response. *)
Definition step (s : Schema) (op : Operation) (db : Store) : Store :=
  match op with
  | CreateOffer now user body => snd (createOffer now user body db)
  | UpdateOfferStatus user id status => snd (updateOfferStatus user id status db)
  | AcceptOffer now user id amount pm => snd (acceptOffer s now user id amount pm db)
  | UpdateTradeStatus now user id body => snd (updateTradeStatus s now user id body db)
  | CreateWallet user body => snd (createWallet user body db)
  | UpdateWallet user id label isDefault => snd (updateWallet user id label isDefault db)
  | DeleteWallet user id => snd (deleteWallet user id db)
  | CreateDeposit user walletId amount txHash =>
      snd (createDeposit user walletId amount txHash db)
  | ConfirmDeposit depositId => confirmDeposit depositId db
  end.

Definition run (s : Schema) (ops : list Operation) (db : Store) : Store :=
  fold_left (fun d op => step s op d) ops db.

(** ** Ledger observations *)

(** The user whose wallet backs the escrow of an accepted offer, and
    the message of the refusal, by the branch of the accept route. *)
Definition escrow_holder (offer : P2POffer.t) (user : ObjectId) : ObjectId :=
  if P2POffer.type offer =? "sell" then user else P2POffer.userId offer.

Definition insufficient (offer : P2POffer.t) : string :=
  if P2POffer.type offer =? "sell"
  then "You don't have sufficient " ++ P2POffer.cryptocurrency offer
       ++ " balance in your wallet. Please deposit funds first."
  else "Seller does not have sufficient balance".

Definition Wallet_findById (id : ObjectId) (db : Store) : option Wallet.t :=
  find (fun w => (Wallet._id w =? id)%nat) (wallets db).

(** The available and the locked balance of the wallet [id]. *)
Definition available (id : ObjectId) (db : Store) : Q :=
  match Wallet_findById id db with
  | Some w => Wallet.balance w
  | None => 0
  end.

Definition locked (id : ObjectId) (db : Store) : Q :=
  match Wallet_findById id db with
  | Some w => Wallet.lockedBalance w
  | None => 0
  end.

Definition wallet_nonneg (w : Wallet.t) : Prop :=
  0 <= Wallet.balance w /\ 0 <= Wallet.lockedBalance w.

(** What the validators of [p2pOfferSchema] leave of use to the accept
    route: a non-negative lower limit and price. *)
Definition offer_ok (o : P2POffer.t) : Prop :=
  0 <= P2POffer.minLimit o /\ 0 <= P2POffer.price o.

(** Identifiers are issued once: the wallets have distinct identifiers,
    all below the next one. *)
Definition ids_ok (db : Store) : Prop :=
  NoDup (map Wallet._id (wallets db))
  /\ Forall (fun i => (i < next_id db)%nat) (map Wallet._id (wallets db)).

(** The invariant of the ledger: no wallet has a negative balance, and
    no deposit on file has a negative amount. *)
Definition ledger_ok (db : Store) : Prop :=
  Forall wallet_nonneg (wallets db)
  /\ Forall (fun d => 0 <= Deposit.amount d) (deposits db).

(** ** The numbers of the ledger as IEEE doubles

    The statements of the routes that compute a wallet's funds, on the
    binary64 numbers that JavaScript and the document store compute
    with: the defaults of [walletSchema], the [$inc] of a confirmed
    deposit, and the quotient, the funds check and the lock of the
    accept route. *)
Module Double.
Import Floats.
#[local] Set Warnings "-inexact-float".

Record Funds : Type := mk {
  balance : float;
  lockedBalance : float
}.

(** [balance: { default: 0 }] and [lockedBalance: { default: 0 }]. *)
Definition created : Funds := mk 0%float 0%float.

(** [$inc: { balance: parseFloat(amount) }]. *)
Definition credit_deposit (w : Funds) (a : float) : Funds :=
  mk (balance w + a)%float (lockedBalance w).

(** [const tradeAmount = amount / offer.price]. *)
Definition tradeAmount (amount price : float) : float :=
  (amount / price)%float.


(** [lockedBalance += tradeAmount; balance -= tradeAmount]. *)
Definition lock (w : Funds) (x : float) : Funds :=
  mk (balance w - x)%float (lockedBalance w + x)%float.


(** A new wallet after a deposit of 0.9; the crypto amount of an accept
    of 10000 at the price 50000; the wallet after the lock of that
    amount. *)
Definition deposited : Funds := credit_deposit created 0.9%float.
End Double.

(** ** Scenarios

    Users 1 and 2 each open a BTC wallet and deposit (3 BTC and 1 BTC);
    user 1 then posts two offers on the same terms, one to sell and one
    to buy 1 BTC at 50000 USD, for trades between 1 and 100000 USD paid
    by bank transfer.  User 9 is an admin. *)

Definition btc_wallet_body : WalletBody :=
  {| wb_cryptocurrency := "btc"; wb_network := "BTC"; wb_label := None;
     wb_isDefault := false |}.

Definition offer_body (type : string) : OfferBody :=
  {| o_type := type; o_cryptocurrency := "btc"; o_fiatCurrency := "usd";
     o_amount := 1; o_price := 50000; o_minLimit := 1; o_maxLimit := 100000;
     o_paymentMethods := Some ["bank_transfer"]; o_terms := None;
     o_expiresInHours := 24 |}.

Definition opening (second_deposit : Q) : list Operation :=
  [ CreateWallet 1 btc_wallet_body;
    CreateWallet 2 btc_wallet_body;
    CreateDeposit 1 0 3 None;
    ConfirmDeposit 2;
    CreateDeposit 2 1 second_deposit None;
    ConfirmDeposit 3;
    CreateOffer 1000 1 (offer_body "sell");
    CreateOffer 2000 1 (offer_body "buy") ].

Definition btc_wallet (id user : ObjectId) (available locked deposited : Q)
  : Wallet.t :=
  Wallet.mk id user "BTC" "BTC" None false available locked deposited 0 true.

Definition posted_offer (id : ObjectId) (type : string) (created : Date)
  : P2POffer.t :=
  P2POffer.mk id 1 type "BTC" "USD" 1 50000 1 100000 ["bank_transfer"]
    None "active" None (created + 86400000)%Z created.

(** The store after the opening: wallet 0 of user 1, wallet 1 of
    user 2 holding [available], the sell offer 4 and the buy offer 5. *)
Definition market_with (available : Q) : Store :=
  {| wallets := [btc_wallet 0 1 3 0 3; btc_wallet 1 2 available 0 available];
     offers := [posted_offer 4 "sell" 1000; posted_offer 5 "buy" 2000];
     trades := [];
     deposits := [Deposit.mk 2 1 0 3 None "confirmed";
                  Deposit.mk 3 2 1 available None "confirmed"];
     notifications :=
       [{| n_userId := 1; n_action := "wallet_created" |};
        {| n_userId := 2; n_action := "wallet_created" |};
        {| n_userId := 1; n_action := "p2p_offer_created" |};
        {| n_userId := 1; n_action := "p2p_offer_created" |}];
     admins := [9%nat];
     next_id := 6 |}.

Definition market : Store := market_with 1.

(** The same with only 0.05 BTC deposited by user 2. *)
Definition poor_market : Store := market_with (5 # 100).

(** The market after the sell offer has been marked expired. *)
Definition swept_market : Store :=
  set_offers market
    [P2POffer.with_status (posted_offer 4 "sell" 1000) "expired";
     posted_offer 5 "buy" 2000].

(** The first page of twenty offers, no filter. *)
Definition any_offer : OfferQuery :=
  {| q_type := None; q_cryptocurrency := None; q_fiatCurrency := None;
     q_paymentMethod := None; q_minAmount := None; q_maxAmount := None;
     q_page := 1; q_limit := 20 |}.

(** A store in which the seller, user 1, has a BTC wallet, the buyer,
    user 2, has none, and one trade is on file. *)
Definition store_with_trade (t : P2PTrade.t) : Store :=
  {| wallets := [btc_wallet 0 1 3 0 3];
     offers := [posted_offer 4 "sell" 1000];
     trades := [t];
     deposits := []; notifications := []; admins := [9%nat];
     next_id := 8 |}.

(** A trade of 0.1 BTC between buyer 2 and seller 1 that reads
    [escrowHeld] true, and a completed one. *)
Definition held_trade : P2PTrade.t :=
  P2PTrade.mk 7 4 2 1 "BTC" "USD" (1 # 10) 50000 5000 "bank_transfer"
    "pending" (1 # 10) (Some true) None None None None None None.

Definition completed_trade : P2PTrade.t :=
  P2PTrade.mk 7 4 2 1 "BTC" "USD" (1 # 10) 50000 5000 "bank_transfer"
    "completed" (1 # 10) None None None None None (Some 8000%Z) None.

Definition status_body (s : string) : StatusBody :=
  {| b_status := s; b_paymentProof := None; b_notes := None;
     b_payoutMethod := None; b_payoutDetails := None |}.

(** ** Further observations *)

(** The key under which a user holds a wallet. *)
Definition wallet_key (w : Wallet.t) : ObjectId * string * string :=
  (Wallet.userId w, Wallet.cryptocurrency w, Wallet.network w).

(** The state of the store that every operation maintains. *)
Definition store_ok (db : Store) : Prop :=
  ledger_ok db /\ ids_ok db
  /\ Forall offer_ok (offers db)
  /\ Forall (fun t => 0 <= P2PTrade.amount t) (trades db).

(** [wallet.save()] as it rewrites the wallet collection. *)
Definition saved (new : Wallet.t) (ws : list Wallet.t) : list Wallet.t :=
  replace_wallet new (wallet_pre_save new ws).

(** The ways in which one operation can rewrite the wallet collection
    [ws]; [escrow] says whether the trade model keeps [escrowHeld],
    [deposit] whether the operation is a deposit confirmation, [next]
    is the next identifier of the store. *)
Inductive ledger_move (escrow deposit : bool) (next : ObjectId)
  (ws : list Wallet.t) : list Wallet.t -> Prop :=
| move_none : ledger_move escrow deposit next ws ws
| move_lock w x :
    In w ws -> 0 <= x -> x <= Wallet.balance w ->
    ledger_move escrow deposit next ws (saved (Wallet.lock w x) ws)
| move_release w x :
    escrow = true -> In w ws -> 0 <= x ->
    ledger_move escrow deposit next ws (saved (Wallet.release w x) ws)
| move_unlock w x :
    escrow = true -> In w ws -> 0 <= x -> x <= Wallet.lockedBalance w ->
    ledger_move escrow deposit next ws (saved (Wallet.unlock w x) ws)
| move_defaults w :
    ledger_move escrow deposit next ws (wallet_pre_save w ws)
| move_create w :
    Wallet._id w = next ->
    Wallet.balance w = 0 -> Wallet.lockedBalance w = 0 ->
    Wallet.totalDeposits w = 0 ->
    includes supportedCryptos (Wallet.cryptocurrency w) = true ->
    ~ In (wallet_key w) (map wallet_key ws) ->
    ledger_move escrow deposit next ws (wallet_pre_save w ws ++ [w])
| move_relabel w lb d :
    In w ws ->
    ledger_move escrow deposit next ws (replace_wallet (Wallet.with_label w lb d) ws)
| move_delete w :
    In w ws -> Wallet.balance w <= 0 -> Wallet.lockedBalance w <= 0 ->
    ledger_move escrow deposit next ws
      (filter (fun x => negb (Wallet._id x =? Wallet._id w)%nat) ws)
| move_credit id a :
    deposit = true -> 0 <= a ->
    ledger_move escrow deposit next ws
      (map (fun w => if (Wallet._id w =? id)%nat
                     then Wallet.credit_deposit w a else w) ws).

Definition is_confirmation (op : Operation) : bool :=
  match op with
  | ConfirmDeposit _ => true
  | _ => false
  end.

(** The query [q] for another page. *)
Definition set_page (q : OfferQuery) (page : positive) : OfferQuery :=
  {| q_type := q_type q; q_cryptocurrency := q_cryptocurrency q;
     q_fiatCurrency := q_fiatCurrency q; q_paymentMethod := q_paymentMethod q;
     q_minAmount := q_minAmount q; q_maxAmount := q_maxAmount q;
     q_page := page; q_limit := q_limit q |}.

(** [a] comes before [b] in a listing that is newest first. *)
Definition not_older (a b : P2POffer.t) : Prop :=
  (P2POffer.createdAt b <= P2POffer.createdAt a)%Z.

(** Pages of one offer. *)
Definition one_per_page : OfferQuery :=
  {| q_type := None; q_cryptocurrency := None; q_fiatCurrency := None;
     q_paymentMethod := None; q_minAmount := None; q_maxAmount := None;
     q_page := 1; q_limit := 1 |}.

(** The wallet [id] of a wallet collection. *)
Definition wallet_of (id : ObjectId) (ws : list Wallet.t) : option Wallet.t :=
  find (fun w => (Wallet._id w =? id)%nat) ws.

Definition locked_of (id : ObjectId) (ws : list Wallet.t) : Q :=
  match wallet_of id ws with
  | Some w => Wallet.lockedBalance w
  | None => 0
  end.

(** Deposit identifiers are below the next identifier of the store. *)
Definition deposits_fresh (db : Store) : Prop :=
  Forall (fun d => (Deposit._id d < next_id db)%nat) (deposits db).

(** Two trade documents with the same terms: identifier, offer,
    parties, currencies, amounts, price and payment method. *)
Definition same_terms (t t' : P2PTrade.t) : Prop :=
  P2PTrade._id t' = P2PTrade._id t
  /\ P2PTrade.offerId t' = P2PTrade.offerId t
  /\ P2PTrade.buyerId t' = P2PTrade.buyerId t
  /\ P2PTrade.sellerId t' = P2PTrade.sellerId t
  /\ P2PTrade.cryptocurrency t' = P2PTrade.cryptocurrency t
  /\ P2PTrade.fiatCurrency t' = P2PTrade.fiatCurrency t
  /\ P2PTrade.amount t' = P2PTrade.amount t
  /\ P2PTrade.price t' = P2PTrade.price t
  /\ P2PTrade.totalFiat t' = P2PTrade.totalFiat t
  /\ P2PTrade.paymentMethod t' = P2PTrade.paymentMethod t
  /\ P2PTrade.escrowAmount t' = P2PTrade.escrowAmount t.

(** The trade that user 2 starts on the sell offer 4 of the market for
    5000 USD, as [p2pTradeSchema] stores it. *)
Definition market_trade : P2PTrade.t :=
  P2PTrade.mk 6 4 2 1 "BTC" "USD" (5000 / 50000) 50000 5000 "bank_transfer"
    "pending" (5000 / 50000) None None None None None None None.

(** The request of user 1 for a second BTC wallet, on the test
    network, as the default one. *)
Definition testnet_wallet_body : WalletBody :=
  {| wb_cryptocurrency := "btc"; wb_network := "BTCTEST";
     wb_label := None; wb_isDefault := true |}.

Definition testnet_wallet : Wallet.t :=
  Wallet.mk 6 1 "BTC" "BTCTEST" None true 0 0 0 0 true.

(** ** The wallet generator

    [WalletGenerator] of [utils/walletGenerator.ts], as far as the
    address of a wallet goes.  An object literal used as a table is the
    list of its own keys; a key that names a member of
    [Object.prototype] is outside this table and outside the statements
    made about it. *)

Fixpoint lookup {A : Type} (key : string) (table : list (string * A))
  : option A :=
  match table with
  | [] => None
  | (k, v) :: rest => if k =? key then Some v else lookup key rest
  end.

(** [prefixes] of [getAddressPrefix]. *)
Definition prefixes : list (string * list (string * string)) :=
  [ ("BTC", [("BTC", "1"); ("BTCTEST", "m")]);
    ("ETH", [("ERC20", "0x"); ("BEP20", "0x")]);
    ("USDT", [("ERC20", "0x"); ("BEP20", "0x"); ("TRC20", "T")]);
    ("BNB", [("BEP20", "0x")]);
    ("ADA", [("ADA", "addr1")]);
    ("XRP", [("XRP", "r")]);
    ("SOL", [("SOL", "")]);
    ("DOT", [("DOT", "1")]);
    ("DOGE", [("DOGE", "D")]);
    ("AVAX", [("AVAX", "0x")]) ].

(** [prefixes[cryptocurrency]?.[network] || '0x']: the empty prefix is
    falsy and gives the default as a missing one does. *)
Definition getAddressPrefix (cryptocurrency network : string) : string :=
  match lookup cryptocurrency prefixes with
  | Some by_network =>
    match lookup network by_network with
    | Some prefix => if prefix =? "" then "0x" else prefix
    | None => "0x"
    end
  | None => "0x"
  end.

(** [minLengths] of [validateAddress]. *)
Definition minLengths : list (string * nat) :=
  [ ("BTC", 26); ("ETH", 42); ("USDT", 34); ("BNB", 42); ("ADA", 58);
    ("XRP", 33); ("SOL", 32); ("DOT", 47); ("DOGE", 34); ("AVAX", 42) ]%nat.

(** [address.startsWith(prefix)] and then the length check, with
    [minLengths[cryptocurrency] || 20]. *)
Definition validateAddress (cryptocurrency network address : string) : bool :=
  let prefix := getAddressPrefix cryptocurrency network in
  if negb (String.prefix prefix address) then false
  else
    let minLength :=
      match lookup cryptocurrency minLengths with
      | Some n => if (n =? 0)%nat then 20%nat else n
      | None => 20%nat
      end in
    (minLength <=? String.length address)%nat.

Section WalletGenerator.

(** [crypto.createHash('sha256').update(m).digest('hex')]. *)
Variable sha256 : string -> string.

(** The prefix, the first 32 characters of the hash of the public key
    and the first 8 of the hash of that hash. *)
Definition generateCryptoAddress (cryptocurrency network publicKey : string)
  : string :=
  let prefix := getAddressPrefix cryptocurrency network in
  let hash := sha256 publicKey in
  let checksum := substring 0 8 (sha256 hash) in
  prefix ++ substring 0 32 hash ++ checksum.

End WalletGenerator.

(** A stand-in for a digest: sixty-four hexadecimal zeros. *)
Definition zero_digest (m : string) : string :=
  "0000000000000000000000000000000000000000000000000000000000000000".

(** * Properties *)

(** One step of a case analysis that follows the branches of a route. *)
Ltac destruct_match :=
  match goal with
  | |- context [match ?x with _ => _ end] => destruct x eqn:?
  end.


(** ** Numbers, lists *)

Lemma Qleb_le a b : Qleb a b = true <-> a <= b.
Proof. apply Qle_bool_iff. Qed.

Lemma Qltb_lt a b : Qltb a b = true <-> a < b.
Proof.
  unfold Qltb. rewrite negb_true_iff.
  split; intro H.
  - apply Qnot_le_lt. intro Hle. apply Qle_bool_iff in Hle. congruence.
  - destruct (Qle_bool b a) eqn:E; [|reflexivity].
    apply Qle_bool_iff in E. exfalso. apply (Qlt_not_le _ _ H E).
Qed.

Lemma Qltb_ge a b : Qltb a b = false <-> b <= a.
Proof. unfold Qltb. rewrite negb_false_iff. apply Qle_bool_iff. Qed.

Lemma Qleb_gt a b : Qleb a b = false <-> b < a.
Proof.
  rewrite <- Qltb_lt. unfold Qltb, Qleb. rewrite negb_true_iff. tauto.
Qed.

Lemma find_none_iff {A} (f : A -> bool) l :
  find f l = None <-> (forall x, In x l -> f x = false).
Proof.
  split.
  - apply find_none.
  - induction l as [|a l IH]; intro H; simpl; [reflexivity|].
    rewrite (H a (or_introl eq_refl)). apply IH.
    intros x Hx. apply H. now right.
Qed.

(** ** The scenarios are reachable through the routes *)

Lemma swept_market_reachable :
  step p2pTradeSchema (UpdateOfferStatus 1 4 "expired") market = swept_market.
Proof. reflexivity. Qed.

Lemma market_reachable :
  run p2pTradeSchema (opening 1) (empty_store [9%nat]) = market.
Proof. reflexivity. Qed.

Lemma poor_market_reachable :
  run p2pTradeSchema (opening (5 # 100)) (empty_store [9%nat]) = poor_market.
Proof. reflexivity. Qed.

(** ** Accepting an offer: the funds check comes before every write *)

(** The two branches of the accept route are one block, run for the
    escrow holder. *)
Lemma escrow_branch offer user tradeAmount db :
  (if P2POffer.type offer =? "sell" then
     lock_in_escrow user
       ("You don't have sufficient " ++ P2POffer.cryptocurrency offer
        ++ " balance in your wallet. Please deposit funds first.")
       (P2POffer.cryptocurrency offer) tradeAmount db
   else
     lock_in_escrow (P2POffer.userId offer)
       "Seller does not have sufficient balance"
       (P2POffer.cryptocurrency offer) tradeAmount db)
  = lock_in_escrow (escrow_holder offer user) (insufficient offer)
      (P2POffer.cryptocurrency offer) tradeAmount db.
Proof.
  unfold escrow_holder, insufficient.
  now destruct (P2POffer.type offer =? "sell").
Qed.

Lemma lock_in_escrow_inr holder message crypto tradeAmount db x db1 :
  lock_in_escrow holder message crypto tradeAmount db = inr (x, db1) ->
  exists w,
    tradeAmount = Finite x
    /\ Wallet_findFunded holder crypto (Finite x) db = Some w
    /\ Wallet_save (Wallet.lock w x) db = Some db1.
Proof.
  unfold lock_in_escrow. intro H.
  destruct tradeAmount as [y|neg|]; [| |discriminate].
  - destruct (Wallet_findFunded _ _ _ db) as [w|] eqn:Hw; [|discriminate].
    destruct (Wallet_save _ db) as [d|] eqn:Hs; [|discriminate].
    inversion H; subst. now exists w.
  - destruct (Wallet_findFunded _ _ _ db); discriminate.
Qed.

(** The store that the accept route leaves: the store as it was; or
    the store after the lock, when the trade is refused by its
    validators; or the store after lock, trade, offer update and
    notifications. *)
Lemma acceptOffer_store s now user id amount pm db :
  snd (acceptOffer s now user id amount pm db) = db
  \/ exists w x db1,
       In w (wallets db)
       /\ Wallet_save (Wallet.lock w x) db = Some db1
       /\ (snd (acceptOffer s now user id amount pm db) = db1
           \/ exists db2,
                wallets db2 = wallets db1
                /\ deposits db2 = deposits db1
                /\ next_id db2 = S (next_id db1)
                /\ wallets (snd (acceptOffer s now user id amount pm db))
                   = wallets db2
                /\ deposits (snd (acceptOffer s now user id amount pm db))
                   = deposits db2
                /\ next_id (snd (acceptOffer s now user id amount pm db))
                   = next_id db2).
Proof.
  unfold acceptOffer.
  destruct (P2POffer_findById id db) as [offer|]; [|now left].
  destruct (negb _); [now left|].
  destruct (_ =? _)%nat; [now left|].
  destruct (_ || _); [now left|].
  destruct (negb _); [now left|].
  cbv zeta. rewrite escrow_branch.
  destruct (lock_in_escrow _ _ _ _ db) as [[code message]|[x db1]] eqn:Hlock;
    [now left|].
  apply lock_in_escrow_inr in Hlock. destruct Hlock as (w & _ & Hw & Hsave).
  right. exists w, x, db1.
  split; [now apply find_some in Hw|]. split; [exact Hsave|].
  destruct (P2PTrade_create _ _ _ _ _ _ _ db1) as [[trade db2]|] eqn:Hc;
    [|now left].
  right. exists db2. unfold P2PTrade_create in Hc.
  destruct (P2PTrade.validate _); [|discriminate].
  inversion Hc; subst. simpl. repeat split.
Qed.

(** C8.  When every wallet that could back the escrow (the holder's
    wallets of the offer's cryptocurrency) has less available than the
    crypto amount of the trade, an otherwise valid accept is answered
    400 with the insufficient-balance message and the store is left as
    it was: no wallet, trade or offer is written. *)
Theorem accept_insufficient_funds s now user id amount pm db offer x :
  P2POffer_findById id db = Some offer ->
  P2POffer.status offer = "active" ->
  P2POffer.userId offer <> user ->
  P2POffer.minLimit offer <= amount <= P2POffer.maxLimit offer ->
  includes (P2POffer.paymentMethods offer) pm = true ->
  js_div amount (P2POffer.price offer) = Finite x ->
  (forall w, In w (wallets db) ->
     Wallet.userId w = escrow_holder offer user ->
     Wallet.cryptocurrency w = P2POffer.cryptocurrency offer ->
     Wallet.balance w < x) ->
  acceptOffer s now user id amount pm db = (Fail 400 (insufficient offer), db).
Proof.
  intros Hfind Hact Hown [Hmin Hmax] Hpm Hdiv Hlow.
  unfold acceptOffer. rewrite Hfind, Hact, String.eqb_refl.
  apply Nat.eqb_neq in Hown. rewrite Hown.
  apply Qltb_ge in Hmin, Hmax. rewrite Hmin, Hmax, Hpm.
  cbn [negb orb]. cbv zeta. rewrite escrow_branch.
  unfold lock_in_escrow. rewrite Hdiv.
  assert (Hnone : Wallet_findFunded (escrow_holder offer user)
                    (P2POffer.cryptocurrency offer) (Finite x) db = None).
  { unfold Wallet_findFunded. apply find_none_iff. intros w Hw.
    destruct (Nat.eqb_spec (Wallet.userId w) (escrow_holder offer user))
      as [Hu|]; [|reflexivity].
    destruct (String.eqb_spec (Wallet.cryptocurrency w)
                (P2POffer.cryptocurrency offer)) as [Hc|]; [|reflexivity].
    simpl. specialize (Hlow w Hw Hu Hc). apply Qleb_gt in Hlow.
    now rewrite Hlow. }
  now rewrite Hnone.
Qed.

(** The scenario of the specification: 0.05 BTC available against a
    lock of 0.1 BTC. *)
Lemma accept_insufficient_funds_witness :
  acceptOffer p2pTradeSchema 5000 2 4 5000 "bank_transfer" poor_market
  = (Fail 400 "You don't have sufficient BTC balance in your wallet. Please deposit funds first.",
     poor_market).
Proof.
  apply (accept_insufficient_funds p2pTradeSchema 5000 2 4 5000
           "bank_transfer" poor_market (posted_offer 4 "sell" 1000)
           (5000 / 50000)).
  - reflexivity.
  - reflexivity.
  - simpl; lia.
  - split; vm_compute; discriminate.
  - reflexivity.
  - reflexivity.
  - intros w [<-|[<-|[]]]; simpl; intros Hu Hc.
    + vm_compute in Hu. discriminate.
    + reflexivity.
Defined.

(** ** Updating a trade *)

Lemma find_map_update {A} (key : A -> nat) (f : A -> A) id l :
  (forall x, key x = id -> key (f x) = id) ->
  find (fun x => (key x =? id)%nat)
       (map (fun x => if (key x =? id)%nat then f x else x) l)
  = option_map f (find (fun x => (key x =? id)%nat) l).
Proof.
  intro Hkey. induction l as [|a l IH]; simpl; [reflexivity|].
  destruct (key a =? id)%nat eqn:E.
  - apply Nat.eqb_eq in E. rewrite (Hkey a E), Nat.eqb_refl. reflexivity.
  - rewrite E. exact IH.
Qed.

(** The updated trade of the response is the stored trade, updated and
    hydrated. *)
Lemma respond_updated_found s id u db stored :
  find (fun t => (P2PTrade._id t =? id)%nat) (trades db) = Some stored ->
  respond_updated s id u db
  = (Json 200 (Some (cast s (apply_update s u stored))),
     P2PTrade_findByIdAndUpdate s id u db).
Proof.
  intro Hfind. unfold respond_updated, P2PTrade_findById. simpl.
  rewrite (find_map_update P2PTrade._id (apply_update s u)) by trivial.
  now rewrite Hfind.
Qed.

Lemma findById_stored s id db trade :
  P2PTrade_findById s id db = Some trade ->
  exists stored,
    find (fun t => (P2PTrade._id t =? id)%nat) (trades db) = Some stored
    /\ trade = cast s stored.
Proof.
  unfold P2PTrade_findById. intro H.
  destruct (find _ (trades db)) as [stored|]; [|discriminate].
  exists stored. split; [reflexivity|]. now inversion H.
Qed.

Lemma party_check trade user :
  P2PTrade.buyerId trade = user \/ P2PTrade.sellerId trade = user ->
  negb (P2PTrade.buyerId trade =? user)%nat
  && negb (P2PTrade.sellerId trade =? user)%nat = false.
Proof.
  intros [<-|<-]; rewrite Nat.eqb_refl; simpl;
    [reflexivity | apply andb_false_r].
Qed.

Lemma p2pTradeSchema_drops_escrowHeld t :
  P2PTrade.escrowHeld (cast p2pTradeSchema t) = None.
Proof. reflexivity. Qed.

(** With [p2pTradeSchema] no hydrated trade has an [escrowHeld]: the
    two escrow branches of the status route are never entered and the
    route reduces to the membership check and the update. *)
Lemma updateTradeStatus_p2pTradeSchema now user id body db :
  updateTradeStatus p2pTradeSchema now user id body db
  = match P2PTrade_findById p2pTradeSchema id db with
    | None => (Fail 404 "Trade not found", db)
    | Some trade =>
      if negb (P2PTrade.buyerId trade =? user)%nat
         && negb (P2PTrade.sellerId trade =? user)%nat then
        (Fail 403 "Not authorized", db)
      else if negb (includes validStatuses (b_status body)) then
        (Fail 400 "Invalid status", db)
      else
        respond_updated p2pTradeSchema id
          (if b_status body =? "completed"
           then set_completedAt (updateData_of body) now
           else if b_status body =? "cancelled"
                then set_cancelledAt (updateData_of body) now
                else updateData_of body) db
    end.
Proof.
  unfold updateTradeStatus, P2PTrade_findById.
  destruct (find _ (trades db)) as [stored|]; cbn [option_map]; [|reflexivity].
  rewrite p2pTradeSchema_drops_escrowHeld. cbn [truthy_flag].
  destruct (negb _ && negb _); [reflexivity|].
  destruct (negb (includes validStatuses (b_status body))); [reflexivity|].
  destruct (b_status body =? "completed"); [reflexivity|].
  destruct (b_status body =? "cancelled"); reflexivity.
Qed.

Lemma source_schema_never_moves_funds now user id body db :
  wallets (snd (updateTradeStatus p2pTradeSchema now user id body db))
  = wallets db.
Proof.
  rewrite updateTradeStatus_p2pTradeSchema.
  destruct (P2PTrade_findById p2pTradeSchema id db); [|reflexivity].
  destruct (negb _ && negb _); [reflexivity|].
  destruct (negb (includes validStatuses (b_status body))); reflexivity.
Qed.



(** C9, as the route has it.  For a party of the trade, a status of
    [validStatuses] is accepted from whatever status the trade has, and
    becomes the trade's status; a status outside the list is answered
    400 and nothing is written.  The current status is not consulted. *)
Theorem status_update_checks_membership_only now user id body db trade :
  P2PTrade_findById p2pTradeSchema id db = Some trade ->
  P2PTrade.buyerId trade = user \/ P2PTrade.sellerId trade = user ->
  (includes validStatuses (b_status body) = true ->
   exists updated db',
     updateTradeStatus p2pTradeSchema now user id body db
     = (Json 200 (Some updated), db')
     /\ P2PTrade.status updated = b_status body
     /\ P2PTrade_findById p2pTradeSchema id db' = Some updated)
  /\ (includes validStatuses (b_status body) = false ->
      updateTradeStatus p2pTradeSchema now user id body db
      = (Fail 400 "Invalid status", db)).
Proof.
  intros Hfind Hparty.
  rewrite updateTradeStatus_p2pTradeSchema, Hfind, (party_check _ _ Hparty).
  split; intros ->; cbn [negb]; [|reflexivity].
  destruct (findById_stored _ _ _ _ Hfind) as (stored & Hstored & _).
  rewrite (respond_updated_found _ _ _ _ _ Hstored).
  eexists; eexists; split; [reflexivity|]. split.
  - simpl. destruct (b_status body =? "completed"); [reflexivity|].
    destruct (b_status body =? "cancelled"); reflexivity.
  - unfold P2PTrade_findById, P2PTrade_findByIdAndUpdate. simpl.
    rewrite (find_map_update P2PTrade._id) by trivial.
    now rewrite Hstored.
Qed.

Lemma status_update_checks_membership_only_witness :
  (includes validStatuses "pending" = true ->
   exists updated db',
     updateTradeStatus p2pTradeSchema 9000 1 7 (status_body "pending")
       (store_with_trade completed_trade)
     = (Json 200 (Some updated), db')
     /\ P2PTrade.status updated = "pending"
     /\ P2PTrade_findById p2pTradeSchema 7 db' = Some updated)
  /\ (includes validStatuses "pending" = false ->
      updateTradeStatus p2pTradeSchema 9000 1 7 (status_body "pending")
        (store_with_trade completed_trade)
      = (Fail 400 "Invalid status", store_with_trade completed_trade)).
Proof.
  apply (status_update_checks_membership_only 9000 1 7 (status_body "pending")
           (store_with_trade completed_trade) completed_trade).
  - reflexivity.
  - right; reflexivity.
Defined.

(** C9, as stated, fails: the trade that user 2 opened on the sell
    offer and completed is put back to pending by a further update. *)
Lemma completed_trade_reopened :
  let db := run p2pTradeSchema
              [AcceptOffer 5000 2 4 5000 "bank_transfer";
               UpdateTradeStatus 6000 2 6 (status_body "completed")] market in
  option_map P2PTrade.status (P2PTrade_findById p2pTradeSchema 6 db)
  = Some "completed"
  /\ exists updated db',
       updateTradeStatus p2pTradeSchema 7000 2 6 (status_body "pending") db
       = (Json 200 (Some updated), db')
       /\ P2PTrade.status updated = "pending"
       /\ option_map P2PTrade.status (P2PTrade_findById p2pTradeSchema 6 db')
          = Some "pending".
Proof.
  split; [reflexivity|].
  eexists; eexists; split; [reflexivity|]. split; reflexivity.
Qed.

(** ** Offers: activity is the status field *)

Lemma In_insert_newest o x l :
  In x (insert_newest o l) -> x = o \/ In x l.
Proof.
  induction l as [|a l IH]; simpl.
  - intros [<-|[]]. now left.
  - destruct (P2POffer.createdAt a <? P2POffer.createdAt o)%Z; simpl.
    + intros [<-|[<-|H]]; auto.
    + intros [<-|H]; auto. destruct (IH H); auto.
Qed.

Lemma In_newest_first x l : In x (newest_first l) -> In x l.
Proof.
  induction l as [|a l IH]; simpl; [tauto|].
  intro H. apply In_insert_newest in H. destruct H as [->|H]; auto.
Qed.

Lemma In_page {A} (x : A) n k l : In x (limited n (skipn k l)) -> In x l.
Proof.
  intro H.
  rewrite <- (firstn_skipn k l). apply in_or_app. right.
  unfold limited in H. destruct (n =? 0)%nat; [exact H|].
  rewrite <- (firstn_skipn n (skipn k l)). apply in_or_app. now left.
Qed.

Lemma listed_offer_matches q db o :
  In o (p_offers (listOffers q db)) ->
  In o (offers db) /\ offer_filter q o = true.
Proof.
  unfold listOffers. simpl. intro H.
  apply In_page, In_newest_first, filter_In in H. exact H.
Qed.

(** C7, as the routes have it.  Whether an offer can be accepted or is
    listed is decided by its status field: an offer whose status is not
    'active' is refused with 400 'Offer is not active' before anything
    is written, and every listed offer has status 'active'. *)
Theorem inactive_offer_refused_and_unlisted s now user id amount pm q db offer :
  P2POffer_findById id db = Some offer ->
  P2POffer.status offer <> "active" ->
  acceptOffer s now user id amount pm db = (Fail 400 "Offer is not active", db)
  /\ Forall (fun o => P2POffer.status o = "active") (p_offers (listOffers q db)).
Proof.
  intros Hfind Hstatus. split.
  - unfold acceptOffer. rewrite Hfind.
    apply String.eqb_neq in Hstatus. now rewrite Hstatus.
  - apply Forall_forall. intros o Ho.
    apply listed_offer_matches in Ho. destruct Ho as [_ Ho].
    unfold offer_filter in Ho.
    repeat (apply andb_prop in Ho; destruct Ho as [Ho _]).
    now apply String.eqb_eq.
Qed.

Lemma inactive_offer_refused_and_unlisted_witness :
  acceptOffer p2pTradeSchema 5000 2 4 5000 "bank_transfer" swept_market
  = (Fail 400 "Offer is not active", swept_market)
  /\ Forall (fun o => P2POffer.status o = "active")
       (p_offers (listOffers any_offer swept_market)).
Proof.
  apply (inactive_offer_refused_and_unlisted p2pTradeSchema 5000 2 4 5000
           "bank_transfer" any_offer swept_market
           (P2POffer.with_status (posted_offer 4 "sell" 1000) "expired")).
  - reflexivity.
  - discriminate.
Defined.

(** C7, as stated, fails: long after the sell offer has expired, it is
    still listed, and user 2 accepts it. *)
Lemma expired_offer_listed_and_accepted :
  (P2POffer.expiresAt (posted_offer 4 "sell" 1000) < 900000000)%Z
  /\ In (posted_offer 4 "sell" 1000) (p_offers (listOffers any_offer market))
  /\ exists trade db',
       acceptOffer p2pTradeSchema 900000000 2 4 5000 "bank_transfer" market
       = (Json 201 trade, db')
       /\ P2PTrade.offerId trade = 4%nat.
Proof.
  split; [reflexivity|]. split.
  - simpl. right. left. reflexivity.
  - eexists; eexists; split; reflexivity.
Qed.

(** ** Balances stay non-negative *)

Lemma ledger_ok_same db db' :
  wallets db' = wallets db -> deposits db' = deposits db ->
  ledger_ok db -> ledger_ok db'.
Proof. unfold ledger_ok. now intros -> ->. Qed.

Lemma wallet_pre_save_nonneg w ws :
  Forall wallet_nonneg ws -> Forall wallet_nonneg (wallet_pre_save w ws).
Proof.
  unfold wallet_pre_save. destruct (Wallet.isDefault w); [|trivial].
  intro H. apply Forall_map. revert H. apply Forall_impl.
  intros x Hx. now destruct (_ && _).
Qed.

Lemma replace_wallet_nonneg w ws :
  wallet_nonneg w -> Forall wallet_nonneg ws ->
  Forall wallet_nonneg (replace_wallet w ws).
Proof.
  intros Hw H. apply Forall_map. revert H. apply Forall_impl.
  intros x Hx. now destruct (_ =? _)%nat.
Qed.

(** What [save()] lets through is non-negative. *)
Lemma validate_nonneg new :
  Wallet.validate new = true -> wallet_nonneg new.
Proof.
  unfold Wallet.validate. intro H.
  repeat (apply andb_prop in H; destruct H as [H ?]).
  split; now apply Qleb_le.
Qed.

Lemma Wallet_save_ok new db db' :
  Wallet_save new db = Some db' -> ledger_ok db -> ledger_ok db'.
Proof.
  unfold Wallet_save. intros Hsave [Hw Hd].
  destruct (Wallet.validate new) eqn:Hv; [|discriminate].
  inversion Hsave; subst db'; clear Hsave. split; [|exact Hd]. simpl.
  apply replace_wallet_nonneg.
  - now apply validate_nonneg.
  - now apply wallet_pre_save_nonneg.
Qed.

Lemma acceptOffer_ok s now user id amount pm db :
  ledger_ok db -> ledger_ok (snd (acceptOffer s now user id amount pm db)).
Proof.
  intro Hok.
  destruct (acceptOffer_store s now user id amount pm db)
    as [->|(w & x & db1 & Hin & Hsave & [->|(db2 & Hw & Hd & _ & Hw' & Hd' & _)])].
  - exact Hok.
  - now apply (Wallet_save_ok (Wallet.lock w x) db).
  - apply (ledger_ok_same db1).
    + now rewrite Hw', Hw.
    + now rewrite Hd', Hd.
    + now apply (Wallet_save_ok (Wallet.lock w x) db).
Qed.

Lemma updateTradeStatus_ok s now user id body db :
  ledger_ok db -> ledger_ok (snd (updateTradeStatus s now user id body db)).
Proof.
  intro Hok. unfold updateTradeStatus, respond_updated.
  repeat (destruct_match; try exact Hok); simpl;
    try (eapply ledger_ok_same; [| | exact Hok]; reflexivity).
  all: eapply ledger_ok_same;
    [| | eapply Wallet_save_ok; [eassumption | exact Hok]];
    reflexivity.
Qed.

Lemma createWallet_ok user body db :
  ledger_ok db -> ledger_ok (snd (createWallet user body db)).
Proof.
  intros [Hw Hd]. unfold createWallet.
  repeat (destruct_match; try (split; assumption)); simpl;
    (split; [|exact Hd]); simpl.
  - now apply wallet_pre_save_nonneg.
  - apply Forall_app. split; [now apply wallet_pre_save_nonneg|].
    constructor; [|constructor]. split; simpl; apply Qle_refl.
Qed.

Lemma updateWallet_ok user id label isDefault db :
  ledger_ok db -> ledger_ok (snd (updateWallet user id label isDefault db)).
Proof.
  intros [Hw Hd]. unfold updateWallet.
  destruct (find _ (wallets db)) as [w|] eqn:Hfind; [|split; assumption].
  split; [|exact Hd]. simpl.
  apply replace_wallet_nonneg; [|exact Hw].
  apply find_some in Hfind. destruct Hfind as [Hin _].
  exact (proj1 (Forall_forall _ _) Hw w Hin).
Qed.

Lemma deleteWallet_ok user id db :
  ledger_ok db -> ledger_ok (snd (deleteWallet user id db)).
Proof.
  intros [Hw Hd]. unfold deleteWallet.
  repeat (destruct_match; try (split; assumption)); simpl.
  split; [|exact Hd]. simpl.
  apply Forall_forall. intros w Hin. apply filter_In in Hin.
  exact (proj1 (Forall_forall _ _) Hw w (proj1 Hin)).
Qed.

Lemma createDeposit_ok user walletId amount txHash db :
  ledger_ok db -> ledger_ok (snd (createDeposit user walletId amount txHash db)).
Proof.
  intros [Hw Hd]. unfold createDeposit.
  repeat (destruct_match; try (split; assumption)); simpl.
  split; [exact Hw|]. simpl.
  apply Forall_app. split; [exact Hd|].
  constructor; [|constructor]. simpl. now apply Qltb_ge.
Qed.

Lemma confirmDeposit_ok depositId db :
  ledger_ok db -> ledger_ok (confirmDeposit depositId db).
Proof.
  intros [Hw Hd]. unfold confirmDeposit.
  destruct (find _ (deposits db)) as [d|] eqn:Hfind; [|split; assumption].
  apply find_some in Hfind. destruct Hfind as [Hin _].
  assert (Hamount : 0 <= Deposit.amount d)
    by exact (proj1 (Forall_forall _ _) Hd d Hin).
  split; simpl.
  - apply Forall_map. revert Hw. apply Forall_impl.
    intros w [Hb Hl]. destruct (_ =? _)%nat; [|now split].
    split; simpl; [|exact Hl].
    rewrite <- (Qplus_0_l 0). now apply Qplus_le_compat.
  - apply Forall_map. revert Hd. apply Forall_impl.
    intros x Hx. now destruct (_ =? _)%nat.
Qed.

Lemma step_ok s op db : ledger_ok db -> ledger_ok (step s op db).
Proof.
  intro Hok. destruct op; simpl.
  - unfold createOffer. repeat (destruct_match; try exact Hok).
  - unfold updateOfferStatus. repeat (destruct_match; try exact Hok).
  - now apply acceptOffer_ok.
  - now apply updateTradeStatus_ok.
  - now apply createWallet_ok.
  - now apply updateWallet_ok.
  - now apply deleteWallet_ok.
  - now apply createDeposit_ok.
  - now apply confirmDeposit_ok.
Qed.

Lemma run_ok s ops db : ledger_ok db -> ledger_ok (run s ops db).
Proof.
  unfold run. revert db.
  induction ops as [|op ops IH]; intros db Hok; simpl; [exact Hok|].
  apply IH. now apply step_ok.
Qed.

(** C3.  Whatever the trade model's schema, after any sequence of
    requests and deposit confirmations on the empty store every wallet
    has a non-negative available and a non-negative locked balance. *)
Theorem balances_never_negative s adm ops :
  Forall wallet_nonneg (wallets (run s ops (empty_store adm))).
Proof.
  apply (run_ok s ops (empty_store adm)).
  split; constructor.
Qed.

(** ** Accepting an offer: what a success writes *)

Lemma Wallet_save_offers new db db' :
  Wallet_save new db = Some db' ->
  offers db' = offers db /\ trades db' = trades db
  /\ wallets db' = replace_wallet new (wallet_pre_save new (wallets db)).
Proof.
  unfold Wallet_save. destruct (Wallet.validate new); [|discriminate].
  intro H. inversion H. now subst.
Qed.

Lemma P2PTrade_create_inv s offer buyer seller x f pm db trade db' :
  P2PTrade_create s offer buyer seller x f pm db = Some (trade, db') ->
  P2PTrade.amount trade = x /\ P2PTrade.escrowAmount trade = x
  /\ P2PTrade.buyerId trade = buyer /\ P2PTrade.sellerId trade = seller
  /\ P2PTrade.offerId trade = P2POffer._id offer
  /\ P2PTrade.status trade = "pending"
  /\ P2PTrade.escrowHeld trade = strict s "escrowHeld" (Some true)
  /\ offers db' = offers db /\ wallets db' = wallets db
  /\ trades db' = (trades db ++ [trade])%list.
Proof.
  unfold P2PTrade_create. destruct (P2PTrade.validate _); [|discriminate].
  intro H. inversion H; subst. simpl. repeat split.
Qed.

(** The shape of every successful accept: the offer is active and not
    the user's own, the fiat amount is within the limits, the crypto
    amount [x] is finite, a wallet [w] of the escrow holder funds it
    and is locked, the trade is created between the buyer and the
    seller, the offer is consumed. *)
Lemma acceptOffer_success s now user id amount pm db trade db' :
  acceptOffer s now user id amount pm db = (Json 201 trade, db') ->
  exists offer x w,
    P2POffer_findById id db = Some offer
    /\ P2POffer.status offer = "active"
    /\ P2POffer.userId offer <> user
    /\ P2POffer.minLimit offer <= amount <= P2POffer.maxLimit offer
    /\ js_div amount (P2POffer.price offer) = Finite x
    /\ Wallet_findFunded (escrow_holder offer user)
         (P2POffer.cryptocurrency offer) (Finite x) db = Some w
    /\ wallets db'
       = replace_wallet (Wallet.lock w x)
           (wallet_pre_save (Wallet.lock w x) (wallets db))
    /\ P2PTrade.amount trade = x /\ P2PTrade.escrowAmount trade = x
    /\ P2PTrade.buyerId trade
       = (if P2POffer.type offer =? "sell" then user else P2POffer.userId offer)
    /\ P2PTrade.sellerId trade
       = (if P2POffer.type offer =? "sell" then P2POffer.userId offer else user)
    /\ P2PTrade.escrowHeld trade = strict s "escrowHeld" (Some true)
    /\ trades db' = (trades db ++ [trade])%list
    /\ offers db'
       = map (fun o => if (P2POffer._id o =? P2POffer._id offer)%nat
                       then consumed offer x now else o) (offers db).
Proof.
  unfold acceptOffer. intro H.
  destruct (P2POffer_findById id db) as [offer|] eqn:Hfind; [|discriminate].
  destruct (negb (P2POffer.status offer =? "active")) eqn:Hact; [discriminate|].
  destruct (P2POffer.userId offer =? user)%nat eqn:Hown; [discriminate|].
  destruct (Qltb amount (P2POffer.minLimit offer)
            || Qltb (P2POffer.maxLimit offer) amount) eqn:Hlim; [discriminate|].
  destruct (negb (includes (P2POffer.paymentMethods offer) pm)); [discriminate|].
  cbv zeta in H. rewrite escrow_branch in H. unfold lock_in_escrow in H.
  destruct (js_div amount (P2POffer.price offer)) as [x|neg|] eqn:Hdiv;
    [| |discriminate].
  2: { destruct (Wallet_findFunded _ _ _ db); discriminate. }
  destruct (Wallet_findFunded _ _ _ db) as [w|] eqn:Hw; [|discriminate].
  destruct (Wallet_save (Wallet.lock w x) db) as [db1|] eqn:Hsave;
    [|discriminate].
  destruct (P2PTrade_create s offer _ _ x amount pm db1) as [[t db2]|] eqn:Hc;
    [|discriminate].
  inversion H; subst t db'; clear H.
  apply Wallet_save_offers in Hsave. destruct Hsave as (Ho1 & Ht1 & Hw1).
  apply P2PTrade_create_inv in Hc.
  destruct Hc as (Ha & He & Hb & Hs & _ & _ & Hh & Ho2 & Hw2 & Ht2).
  apply negb_false_iff, String.eqb_eq in Hact.
  apply Nat.eqb_neq in Hown.
  apply orb_false_elim in Hlim. destruct Hlim as [Hmin Hmax].
  apply Qltb_ge in Hmin, Hmax.
  exists offer, x, w. simpl.
  rewrite Hw2, Hw1, Ho2, Ho1, Ht2, Ht1.
  repeat split; try assumption.
  unfold consumed. destruct (Qleb (P2POffer.amount offer) x); reflexivity.
Qed.

Lemma consumed_id offer x now :
  P2POffer._id (consumed offer x now) = P2POffer._id offer.
Proof. unfold consumed. now destruct (Qleb _ _). Qed.

Lemma js_div_finite a b x :
  js_div a b = Finite x -> ~ b == 0 /\ x = a / b.
Proof.
  unfold js_div. destruct (Qeq_bool b 0) eqn:E.
  - destruct (Qeq_bool a 0); discriminate.
  - intro H. inversion H. split; [|reflexivity].
    intro Hb. apply Qeq_bool_iff in Hb. congruence.
Qed.

Lemma quotient_nonneg a b : 0 <= a -> 0 <= b -> ~ b == 0 -> 0 <= a / b.
Proof.
  intros Ha Hb Hnz. apply Qle_shift_div_l.
  - destruct (Qle_lt_or_eq _ _ Hb) as [Hlt|Heq]; [exact Hlt|].
    exfalso. apply Hnz. now symmetry.
  - now rewrite Qmult_0_l.
Qed.

(** C6, as the route has it.  On an offer whose limits and price are
    non-negative (the schema's validators), a successful accept creates
    a trade of the crypto amount [x = amount / price], which is not
    compared with the offer's amount.  The offer's amount does not
    grow: when it exceeds [x] it is decremented by [x] and the status
    stays; otherwise the offer is marked completed and keeps its
    amount. *)
Theorem accept_consumes_offer s now user id amount pm db offer trade db' :
  P2POffer_findById id db = Some offer ->
  0 <= P2POffer.minLimit offer ->
  0 <= P2POffer.price offer ->
  acceptOffer s now user id amount pm db = (Json 201 trade, db') ->
  js_div amount (P2POffer.price offer) = Finite (P2PTrade.amount trade)
  /\ 0 <= P2PTrade.amount trade
  /\ exists offer',
       P2POffer_findById id db' = Some offer'
       /\ P2POffer.amount offer' <= P2POffer.amount offer
       /\ (P2POffer.amount offer <= P2PTrade.amount trade ->
           offer' = P2POffer.complete offer now)
       /\ (P2PTrade.amount trade < P2POffer.amount offer ->
           offer' = P2POffer.with_amount offer
                      (P2POffer.amount offer - P2PTrade.amount trade)).
Proof.
  intros Hfind Hmin Hprice Hacc.
  destruct (acceptOffer_success _ _ _ _ _ _ _ _ _ Hacc)
    as (offer0 & x & w & Hfind0 & _ & _ & [Hlo _] & Hdiv & _ & _ & Hx & _
        & _ & _ & _ & _ & Hoffers).
  rewrite Hfind in Hfind0. inversion Hfind0; subst offer0; clear Hfind0.
  rewrite Hx. split; [exact Hdiv|].
  destruct (js_div_finite _ _ _ Hdiv) as [Hnz Hq].
  assert (Hx0 : 0 <= x).
  { rewrite Hq. apply quotient_nonneg; try assumption.
    now apply Qle_trans with (P2POffer.minLimit offer). }
  split; [exact Hx0|].
  exists (consumed offer x now). split; [|split; [|split]].
  - unfold P2POffer_findById in *. rewrite Hoffers.
    assert (Hid : P2POffer._id offer = id).
    { apply find_some in Hfind. now apply Nat.eqb_eq. }
    rewrite Hid.
    rewrite (find_map_update P2POffer._id (fun _ => consumed offer x now)).
    + now rewrite Hfind.
    + intros _ _. now rewrite consumed_id.
  - unfold consumed. destruct (Qleb (P2POffer.amount offer) x); simpl.
    + apply Qle_refl.
    + rewrite <- (Qplus_0_r (P2POffer.amount offer)) at 2.
      unfold Qminus. apply Qplus_le_compat; [apply Qle_refl|].
      rewrite <- (Qopp_involutive 0). now apply Qopp_le_compat.
  - intro Hle. unfold consumed. apply Qleb_le in Hle. now rewrite Hle.
  - intro Hlt. unfold consumed. apply Qleb_gt in Hlt. now rewrite Hlt.
Qed.

Lemma accept_consumes_offer_witness :
  exists trade db',
    acceptOffer p2pTradeSchema 5000 2 4 5000 "bank_transfer" market
    = (Json 201 trade, db')
    /\ js_div 5000 50000 = Finite (P2PTrade.amount trade)
    /\ 0 <= P2PTrade.amount trade
    /\ exists offer',
         P2POffer_findById 4 db' = Some offer'
         /\ P2POffer.amount offer' <= 1
         /\ (1 <= P2PTrade.amount trade ->
             offer' = P2POffer.complete (posted_offer 4 "sell" 1000) 5000)
         /\ (P2PTrade.amount trade < 1 ->
             offer' = P2POffer.with_amount (posted_offer 4 "sell" 1000)
                        (1 - P2PTrade.amount trade)).
Proof.
  eexists; eexists; split; [reflexivity|].
  apply (accept_consumes_offer p2pTradeSchema 5000 2 4 5000 "bank_transfer"
           market (posted_offer 4 "sell" 1000)).
  - reflexivity.
  - vm_compute; discriminate.
  - vm_compute; discriminate.
  - reflexivity.
Defined.

(** C6, as stated, fails: on the buy offer of 1 BTC, user 2 accepts
    100000 USD, the upper limit; the trade is created for 2 BTC and the
    offer is completed with its amount still 1. *)
Lemma accept_beyond_offer_amount :
  exists trade db',
    acceptOffer p2pTradeSchema 5000 2 5 100000 "bank_transfer" market
    = (Json 201 trade, db')
    /\ P2POffer.amount (posted_offer 5 "buy" 2000) == 1
    /\ P2PTrade.amount trade == 2
    /\ P2POffer_findById 5 db'
       = Some (P2POffer.complete (posted_offer 5 "buy" 2000) 5000).
Proof.
  eexists; eexists; split; [reflexivity|].
  split; [reflexivity|]. split; reflexivity.
Qed.


(** ** Whose wallet backs the escrow *)

(** C2, as the route has it.  The wallet that a successful accept locks
    belongs to the user recorded as the trade's buyer, on a sell offer
    (the accepting user) as on a buy offer (the offer's owner); the
    trade's seller is another user.  The specification asks for the
    seller's wallet. *)
Theorem accept_locks_buyer_wallet s now user id amount pm db trade db' :
  acceptOffer s now user id amount pm db = (Json 201 trade, db') ->
  P2PTrade.sellerId trade <> P2PTrade.buyerId trade
  /\ exists w,
       In w (wallets db)
       /\ Wallet.userId w = P2PTrade.buyerId trade
       /\ P2PTrade.escrowAmount trade <= Wallet.balance w
       /\ wallets db'
          = replace_wallet (Wallet.lock w (P2PTrade.escrowAmount trade))
              (wallet_pre_save (Wallet.lock w (P2PTrade.escrowAmount trade))
                 (wallets db)).
Proof.
  intro Hacc.
  destruct (acceptOffer_success _ _ _ _ _ _ _ _ _ Hacc)
    as (offer & x & w & _ & _ & Hown & _ & _ & Hw & Hws & _ & He & Hb & Hs
        & _ & _ & _).
  rewrite Hb, Hs, He. split.
  - destruct (P2POffer.type offer =? "sell"); congruence.
  - exists w. apply find_some in Hw. destruct Hw as [Hin Hq].
    repeat (apply andb_prop in Hq; destruct Hq as [Hq ?]).
    repeat split; try assumption.
    + apply Nat.eqb_eq in Hq. rewrite Hq. reflexivity.
    + now apply Qleb_le.
Qed.

Lemma accept_locks_buyer_wallet_witness :
  exists trade db',
    acceptOffer IP2PTrade 5000 2 5 5000 "bank_transfer" market
    = (Json 201 trade, db')
    /\ P2PTrade.sellerId trade <> P2PTrade.buyerId trade
    /\ exists w,
         In w (wallets market)
         /\ Wallet.userId w = P2PTrade.buyerId trade
         /\ P2PTrade.escrowAmount trade <= Wallet.balance w
         /\ wallets db'
            = replace_wallet (Wallet.lock w (P2PTrade.escrowAmount trade))
                (wallet_pre_save (Wallet.lock w (P2PTrade.escrowAmount trade))
                   (wallets market)).
Proof.
  eexists; eexists; split; [reflexivity|].
  apply (accept_locks_buyer_wallet IP2PTrade 5000 2 5 5000 "bank_transfer"
           market).
  reflexivity.
Defined.

(** On the sell offer of user 1, accepted by user 2 for 5000 USD: the
    trade holds 0.1 BTC in escrow with user 1 as seller, yet it is
    wallet 1, of the buyer, that is locked; the seller's wallet 0 has
    nothing locked. *)
Example sell_offer_locks_acceptor :
  exists trade db',
    acceptOffer IP2PTrade 5000 2 4 5000 "bank_transfer" market
    = (Json 201 trade, db')
    /\ P2PTrade.sellerId trade = 1%nat /\ P2PTrade.buyerId trade = 2%nat
    /\ P2PTrade.escrowHeld trade = Some true
    /\ P2PTrade.escrowAmount trade == 1 # 10
    /\ locked 0 db' == 0 /\ available 0 db' == 3
    /\ locked 1 db' == 1 # 10 /\ available 1 db' == 9 # 10.
Proof.
  eexists; eexists; split; [reflexivity|]. repeat split.
Qed.

(** On the buy offer of user 1, accepted by user 2: user 2 is the
    seller, and it is wallet 0, of the offer's owner and buyer, that is
    locked. *)
Example buy_offer_locks_owner :
  exists trade db',
    acceptOffer IP2PTrade 5000 2 5 5000 "bank_transfer" market
    = (Json 201 trade, db')
    /\ P2PTrade.sellerId trade = 2%nat /\ P2PTrade.buyerId trade = 1%nat
    /\ P2PTrade.escrowHeld trade = Some true
    /\ P2PTrade.escrowAmount trade == 1 # 10
    /\ locked 1 db' == 0 /\ available 1 db' == 1
    /\ locked 0 db' == 1 # 10 /\ available 0 db' == 29 # 10.
Proof.
  eexists; eexists; split; [reflexivity|]. repeat split.
Qed.

(** ** Completing and cancelling a trade *)

(** C5, on the model as the source declares it.  [escrowHeld] is not a
    path of [p2pTradeSchema]: the trade that the accept route creates
    with [escrowHeld: true] is stored without it.  User 2 accepts the
    sell offer for 0.1 BTC and the trade is completed twice: both
    requests are answered 200, and neither writes a wallet.  The
    buyer's wallet 1 is never credited: the escrow moves zero times,
    not once. *)
Theorem completing_twice_releases_nothing :
  exists trade db1 once db2 twice db3,
    acceptOffer p2pTradeSchema 5000 2 4 5000 "bank_transfer" market
    = (Json 201 trade, db1)
    /\ P2PTrade.buyerId trade = 2%nat
    /\ P2PTrade.escrowAmount trade == 1 # 10
    /\ P2PTrade.escrowHeld trade = None
    /\ updateTradeStatus p2pTradeSchema 6000 2 6 (status_body "completed") db1
       = (Json 200 (Some once), db2)
    /\ updateTradeStatus p2pTradeSchema 7000 2 6 (status_body "completed") db2
       = (Json 200 (Some twice), db3)
    /\ P2PTrade.status once = "completed"
    /\ P2PTrade.status twice = "completed"
    /\ wallets db2 = wallets db1
    /\ wallets db3 = wallets db1
    /\ available 1 db1 == 9 # 10 /\ locked 1 db1 == 1 # 10
    /\ available 1 db3 == 9 # 10 /\ locked 1 db3 == 1 # 10.
Proof.
  do 6 eexists.
  split; [reflexivity|]. split; [reflexivity|]. split; [reflexivity|].
  split; [reflexivity|]. split; [reflexivity|]. split; [reflexivity|].
  repeat split.
Qed.

(** C4.  User 2 accepts the sell offer: wallet 1 goes from 1 BTC
    available to 0.9 available and 0.1 locked.  The trade is then
    cancelled.
    - On the model as the source declares it, the cancellation is
      answered 200 and writes no wallet.
    - On trade documents as [IP2PTrade] declares them, the return is
      looked up by the trade's seller, user 1: with nothing locked in
      wallet 0 the save is refused and the request answered 500; once
      wallet 0 holds the lock of another trade (the buy offer, accepted
      by user 2), the cancellation unlocks wallet 0.
    In each case wallet 1 keeps 0.9 available and 0.1 locked. *)
Theorem cancel_leaves_lock_in_place :
  (exists trade db1 updated db2,
     acceptOffer p2pTradeSchema 5000 2 4 5000 "bank_transfer" market
     = (Json 201 trade, db1)
     /\ updateTradeStatus p2pTradeSchema 6000 2 6 (status_body "cancelled") db1
        = (Json 200 (Some updated), db2)
     /\ P2PTrade.status updated = "cancelled"
     /\ available 1 market == 1 /\ locked 1 market == 0
     /\ available 1 db1 == 9 # 10 /\ locked 1 db1 == 1 # 10
     /\ available 1 db2 == 9 # 10 /\ locked 1 db2 == 1 # 10)
  /\ (exists trade db1,
        acceptOffer IP2PTrade 5000 2 4 5000 "bank_transfer" market
        = (Json 201 trade, db1)
        /\ updateTradeStatus IP2PTrade 6000 2 6 (status_body "cancelled") db1
           = (Fail 500 "Server error", db1)
        /\ available 1 db1 == 9 # 10 /\ locked 1 db1 == 1 # 10)
  /\ (exists trade db1 other db2 updated db3,
        acceptOffer IP2PTrade 5000 2 4 5000 "bank_transfer" market
        = (Json 201 trade, db1)
        /\ acceptOffer IP2PTrade 5500 2 5 5000 "bank_transfer" db1
           = (Json 201 other, db2)
        /\ updateTradeStatus IP2PTrade 6000 2 6 (status_body "cancelled") db2
           = (Json 200 (Some updated), db3)
        /\ P2PTrade.escrowHeld updated = Some false
        /\ available 0 db2 == 29 # 10 /\ locked 0 db2 == 1 # 10
        /\ available 0 db3 == 3 /\ locked 0 db3 == 0
        /\ available 1 db3 == 9 # 10 /\ locked 1 db3 == 1 # 10).
Proof.
  split; [|split].
  - do 4 eexists. split; [reflexivity|]. split; [reflexivity|]. repeat split.
  - do 2 eexists. split; [reflexivity|]. split; [reflexivity|]. repeat split.
  - do 6 eexists. split; [reflexivity|]. split; [reflexivity|].
    split; [reflexivity|]. repeat split.
Qed.

Lemma wallet_pre_save_ids w ws :
  map Wallet._id (wallet_pre_save w ws) = map Wallet._id ws.
Proof.
  unfold wallet_pre_save. destruct (Wallet.isDefault w); [|reflexivity].
  rewrite map_map. apply map_ext. intro x. now destruct (_ && _).
Qed.

Lemma replace_wallet_ids w ws :
  map Wallet._id (replace_wallet w ws) = map Wallet._id ws.
Proof.
  unfold replace_wallet. rewrite map_map. apply map_ext. intro x.
  destruct (Wallet._id x =? Wallet._id w)%nat eqn:E; [|reflexivity].
  apply Nat.eqb_eq in E. now symmetry.
Qed.

Lemma In_pre_save w' w ws :
  In w ws -> Wallet._id w = Wallet._id w' -> In w (wallet_pre_save w' ws).
Proof.
  intros Hin Hid. unfold wallet_pre_save.
  destruct (Wallet.isDefault w'); [|exact Hin].
  apply in_map_iff. exists w. split; [|exact Hin].
  rewrite Hid, Nat.eqb_refl. simpl. now rewrite andb_false_r.
Qed.

Lemma replace_wallet_absent w ws :
  ~ In (Wallet._id w) (map Wallet._id ws) -> replace_wallet w ws = ws.
Proof.
  induction ws as [|a ws IH]; intro H; [reflexivity|]. simpl in *.
  destruct (Nat.eqb_spec (Wallet._id a) (Wallet._id w)) as [E|E].
  - exfalso. apply H. now left.
  - f_equal. apply IH. intro Hin. apply H. now right.
Qed.

(** Wallet identifiers stay distinct along every run. *)
Lemma ids_ok_same db db' :
  map Wallet._id (wallets db') = map Wallet._id (wallets db) ->
  (next_id db <= next_id db')%nat ->
  ids_ok db -> ids_ok db'.
Proof.
  unfold ids_ok. intros -> Hle [Hnd Hlt]. split; [exact Hnd|].
  revert Hlt. apply Forall_impl. intros i Hi. lia.
Qed.

Lemma Wallet_save_ids new db db' :
  Wallet_save new db = Some db' ->
  map Wallet._id (wallets db') = map Wallet._id (wallets db)
  /\ next_id db' = next_id db.
Proof.
  unfold Wallet_save. destruct (Wallet.validate new); [|discriminate].
  intro H. inversion H; subst. simpl.
  now rewrite replace_wallet_ids, wallet_pre_save_ids.
Qed.

Lemma acceptOffer_ids s now user id amount pm db :
  ids_ok db -> ids_ok (snd (acceptOffer s now user id amount pm db)).
Proof.
  intro Hok.
  destruct (acceptOffer_store s now user id amount pm db)
    as [->|(w & x & db1 & Hin & Hsave
            & [->|(db2 & Hw & _ & Hn & Hw' & _ & Hn')])];
    [exact Hok| |];
    apply Wallet_save_ids in Hsave; destruct Hsave as [Hsw Hsn];
    (eapply ids_ok_same; [| | exact Hok]).
  - exact Hsw.
  - lia.
  - now rewrite Hw', Hw.
  - lia.
Qed.

Lemma updateTradeStatus_ids s now user id body db :
  ids_ok db -> ids_ok (snd (updateTradeStatus s now user id body db)).
Proof.
  intro Hok. unfold updateTradeStatus, respond_updated.
  repeat (destruct_match; try exact Hok); simpl;
    try match goal with
    | Hs : Wallet_save _ _ = Some _ |- _ =>
      apply Wallet_save_ids in Hs; destruct Hs as [Hsw Hsn]
    end;
    (eapply ids_ok_same; [| | exact Hok]); simpl;
    try rewrite Hsn; try exact Hsw; try reflexivity; lia.
Qed.

Lemma createWallet_ids user body db :
  ids_ok db -> ids_ok (snd (createWallet user body db)).
Proof.
  intros Hok. unfold createWallet.
  repeat (destruct_match; try exact Hok); simpl.
  - eapply ids_ok_same; [| | exact Hok]; simpl;
      [apply wallet_pre_save_ids | lia].
  - destruct Hok as [Hnd Hlt]. unfold ids_ok. simpl.
    rewrite map_app, wallet_pre_save_ids. simpl. split.
    + apply NoDup_app; [exact Hnd | repeat constructor; simpl; tauto |].
      intros i Hi [<-|[]].
      apply (proj1 (Forall_forall _ _) Hlt) in Hi. lia.
    + apply Forall_app. split.
      * revert Hlt. apply Forall_impl. intros i Hi. lia.
      * constructor; [lia|constructor].
Qed.

Lemma updateWallet_ids user id label isDefault db :
  ids_ok db -> ids_ok (snd (updateWallet user id label isDefault db)).
Proof.
  intro Hok. unfold updateWallet.
  destruct (find _ (wallets db)); [|exact Hok].
  eapply ids_ok_same; [| | exact Hok]; simpl;
    [apply replace_wallet_ids | lia].
Qed.

Lemma filter_ids_ok (f : Wallet.t -> bool) ws n :
  NoDup (map Wallet._id ws) ->
  Forall (fun i => (i < n)%nat) (map Wallet._id ws) ->
  NoDup (map Wallet._id (filter f ws))
  /\ Forall (fun i => (i < n)%nat) (map Wallet._id (filter f ws)).
Proof.
  induction ws as [|a ws IH]; simpl; intros Hnd Hlt; [now split|].
  inversion Hnd as [|? ? Hnotin Hnd']; subst.
  inversion Hlt as [|? ? Ha Hlt']; subst.
  destruct (IH Hnd' Hlt') as [IH1 IH2].
  destruct (f a); simpl; [|now split].
  split; [|now constructor].
  constructor; [|exact IH1].
  intro Hin. apply Hnotin. apply in_map_iff in Hin.
  destruct Hin as (w & Hid & Hw). apply filter_In in Hw.
  rewrite <- Hid. apply in_map. tauto.
Qed.

Lemma deleteWallet_ids user id db :
  ids_ok db -> ids_ok (snd (deleteWallet user id db)).
Proof.
  intro Hok. unfold deleteWallet.
  repeat (destruct_match; try exact Hok); simpl.
  destruct Hok as [Hnd Hlt]. now apply filter_ids_ok.
Qed.

Lemma confirmDeposit_ids depositId db :
  ids_ok db -> ids_ok (confirmDeposit depositId db).
Proof.
  intro Hok. unfold confirmDeposit.
  destruct (find _ (deposits db)); [|exact Hok].
  eapply ids_ok_same; [| | exact Hok]; simpl; [|lia].
  rewrite map_map. apply map_ext. intro w. now destruct (_ =? _)%nat.
Qed.

Lemma step_ids s op db : ids_ok db -> ids_ok (step s op db).
Proof.
  intro Hok. destruct op; simpl.
  - unfold createOffer. repeat (destruct_match; try exact Hok); simpl.
    eapply ids_ok_same; [| | exact Hok]; simpl; [reflexivity|lia].
  - unfold updateOfferStatus. repeat (destruct_match; try exact Hok).
  - now apply acceptOffer_ids.
  - now apply updateTradeStatus_ids.
  - now apply createWallet_ids.
  - now apply updateWallet_ids.
  - now apply deleteWallet_ids.
  - unfold createDeposit. repeat (destruct_match; try exact Hok); simpl.
    eapply ids_ok_same; [| | exact Hok]; simpl; [reflexivity|lia].
  - now apply confirmDeposit_ids.
Qed.

Lemma run_ids s ops db : ids_ok db -> ids_ok (run s ops db).
Proof.
  unfold run. revert db.
  induction ops as [|op ops IH]; intros db Hok; simpl; [exact Hok|].
  apply IH. now apply step_ids.
Qed.

Lemma reachable_ids_distinct s adm ops :
  NoDup (map Wallet._id (wallets (run s ops (empty_store adm)))).
Proof.
  apply (run_ids s ops (empty_store adm)).
  split; constructor.
Qed.

(** ** Stored offers satisfy their validators *)

(** The two validators that the consumption of an offer relies on. *)
Lemma validate_offer_ok o :
  P2POffer.validate o = true -> offer_ok o.
Proof.
  unfold P2POffer.validate, offer_ok. intro H.
  repeat (apply andb_prop in H; destruct H as [H ?]).
  split; now apply Qleb_le.
Qed.

Lemma consumed_ok offer x now : offer_ok offer -> offer_ok (consumed offer x now).
Proof. unfold consumed, offer_ok. now destruct (Qleb _ _). Qed.

Lemma acceptOffer_offers s now user id amount pm db :
  offers (snd (acceptOffer s now user id amount pm db)) = offers db
  \/ exists offer x,
       P2POffer_findById id db = Some offer
       /\ offers (snd (acceptOffer s now user id amount pm db))
          = map (fun o => if (P2POffer._id o =? P2POffer._id offer)%nat
                          then consumed offer x now else o) (offers db).
Proof.
  unfold acceptOffer.
  destruct (P2POffer_findById id db) as [offer|] eqn:Hfind; [|now left].
  destruct (negb _); [now left|].
  destruct (_ =? _)%nat; [now left|].
  destruct (_ || _); [now left|].
  destruct (negb _); [now left|].
  cbv zeta. rewrite escrow_branch.
  destruct (lock_in_escrow _ _ _ _ db) as [[code message]|[x db1]] eqn:Hlock;
    [now left|].
  apply lock_in_escrow_inr in Hlock. destruct Hlock as (w & _ & _ & Hsave).
  apply Wallet_save_offers in Hsave. destruct Hsave as (Ho1 & _ & _).
  destruct (P2PTrade_create _ _ _ _ _ _ _ db1) as [[trade db2]|] eqn:Hc;
    [|now left].
  apply P2PTrade_create_inv in Hc.
  destruct Hc as (_ & _ & _ & _ & _ & _ & _ & Ho2 & _ & _).
  right. exists offer, x. split; [reflexivity|].
  simpl. rewrite Ho2, Ho1.
  unfold consumed. destruct (Qleb (P2POffer.amount offer) x); reflexivity.
Qed.

Lemma step_offers_ok s op db :
  Forall offer_ok (offers db) -> Forall offer_ok (offers (step s op db)).
Proof.
  intro Hok. destruct op; simpl.
  - unfold createOffer. repeat (destruct_match; try exact Hok); simpl.
    apply Forall_app. split; [exact Hok|].
    constructor; [|constructor]. now apply validate_offer_ok.
  - unfold updateOfferStatus.
    destruct (find _ (offers db)) as [offer|] eqn:Hfind; [|exact Hok]. simpl.
    apply Forall_map. apply Forall_forall. intros o Ho.
    apply (proj1 (Forall_forall _ _) Hok) in Ho.
    destruct (_ =? _)%nat eqn:E; [|exact Ho].
    apply find_some in Hfind. destruct Hfind as [Hin _].
    exact (proj1 (Forall_forall _ _) Hok offer Hin).
  - destruct (acceptOffer_offers s now user id amount paymentMethod db)
      as [->|(offer & x & Hfind & ->)]; [exact Hok|].
    apply find_some in Hfind. destruct Hfind as [Hin _].
    apply Forall_map. apply Forall_forall. intros o Ho.
    destruct (_ =? _)%nat.
    + apply consumed_ok. exact (proj1 (Forall_forall _ _) Hok offer Hin).
    + exact (proj1 (Forall_forall _ _) Hok o Ho).
  - unfold updateTradeStatus, respond_updated.
    repeat (destruct_match; try exact Hok); simpl;
      match goal with
      | Hs : Wallet_save _ _ = Some _ |- _ =>
        apply Wallet_save_offers in Hs; destruct Hs as (-> & _ & _)
      end; exact Hok.
  - unfold createWallet. repeat (destruct_match; try exact Hok).
  - unfold updateWallet. repeat (destruct_match; try exact Hok).
  - unfold deleteWallet. repeat (destruct_match; try exact Hok).
  - unfold createDeposit. repeat (destruct_match; try exact Hok).
  - unfold confirmDeposit. repeat (destruct_match; try exact Hok).
Qed.

Lemma run_offers_ok s ops db :
  Forall offer_ok (offers db) -> Forall offer_ok (offers (run s ops db)).
Proof.
  unfold run. revert db.
  induction ops as [|op ops IH]; intros db Hok; simpl; [exact Hok|].
  apply IH. now apply step_offers_ok.
Qed.

(** Every offer of a store reached from the empty one has a
    non-negative lower limit and price. *)
Lemma reachable_offers_ok s adm ops id offer :
  P2POffer_findById id (run s ops (empty_store adm)) = Some offer ->
  offer_ok offer.
Proof.
  intro Hfind. apply find_some in Hfind. destruct Hfind as [Hin _].
  refine (proj1 (Forall_forall _ _) _ offer Hin).
  apply run_offers_ok. constructor.
Qed.

(** * Further properties *)

(** ** What the store keeps *)

Lemma includes_In xs x : includes xs x = true <-> In x xs.
Proof.
  unfold includes. rewrite existsb_exists. split.
  - intros (y & Hy & E). apply String.eqb_eq in E. now subst.
  - intro H. exists x. split; [exact H|apply String.eqb_refl].
Qed.

Lemma updateTradeStatus_trades s now user id body db :
  offers (snd (updateTradeStatus s now user id body db)) = offers db
  /\ (trades (snd (updateTradeStatus s now user id body db)) = trades db
      \/ exists u,
           trades (snd (updateTradeStatus s now user id body db))
           = map (fun t => if (P2PTrade._id t =? id)%nat
                           then apply_update s u t else t) (trades db)).
Proof.
  unfold updateTradeStatus, respond_updated.
  repeat (destruct_match; try (split; [reflexivity|now left])); simpl;
    try match goal with
    | Hs : Wallet_save _ _ = Some _ |- _ =>
      apply Wallet_save_offers in Hs; destruct Hs as (-> & -> & _)
    end; (split; [reflexivity|right; eexists; reflexivity]).
Qed.

(** The wallets that the accept route leaves: those it found, or those
    after the lock of the quotient [x] in a wallet that holds at least
    [x]. *)
Lemma acceptOffer_wallets s now user id amount pm db :
  wallets (snd (acceptOffer s now user id amount pm db)) = wallets db
  \/ exists offer w x,
       P2POffer_findById id db = Some offer
       /\ P2POffer.minLimit offer <= amount
       /\ js_div amount (P2POffer.price offer) = Finite x
       /\ In w (wallets db)
       /\ x <= Wallet.balance w
       /\ Wallet.validate (Wallet.lock w x) = true
       /\ wallets (snd (acceptOffer s now user id amount pm db))
          = saved (Wallet.lock w x) (wallets db).
Proof.
  unfold acceptOffer.
  destruct (P2POffer_findById id db) as [offer|] eqn:Hfind; [|now left].
  destruct (negb _); [now left|].
  destruct (_ =? _)%nat; [now left|].
  destruct (_ || _) eqn:Hlim; [now left|].
  destruct (negb _); [now left|].
  cbv zeta. rewrite escrow_branch.
  destruct (lock_in_escrow _ _ _ _ db) as [[code message]|[x db1]] eqn:Hlock;
    [now left|].
  apply lock_in_escrow_inr in Hlock. destruct Hlock as (w & Hdiv & Hw & Hsave).
  right. exists offer, w, x.
  apply orb_false_elim in Hlim. destruct Hlim as [Hmin _].
  apply Qltb_ge in Hmin.
  apply find_some in Hw. destruct Hw as [Hin Hq].
  apply andb_prop in Hq. destruct Hq as [Hq _].
  apply andb_prop in Hq. destruct Hq as [_ Hq]. apply Qleb_le in Hq.
  unfold Wallet_save in Hsave.
  destruct (Wallet.validate (Wallet.lock w x)) eqn:Hv; [|discriminate].
  inversion Hsave; subst db1; clear Hsave.
  repeat (split; [assumption || reflexivity|]).
  unfold P2PTrade_create. destruct (P2PTrade.validate _); reflexivity.
Qed.

(** The trades that the accept route leaves: those it found, and the
    new one, which has passed its validators. *)
Lemma acceptOffer_trades s now user id amount pm db :
  trades (snd (acceptOffer s now user id amount pm db)) = trades db
  \/ exists trade,
       0 <= P2PTrade.amount trade
       /\ trades (snd (acceptOffer s now user id amount pm db))
          = (trades db ++ [trade])%list.
Proof.
  unfold acceptOffer.
  destruct (P2POffer_findById id db) as [offer|]; [|now left].
  destruct (negb _); [now left|].
  destruct (_ =? _)%nat; [now left|].
  destruct (_ || _); [now left|].
  destruct (negb _); [now left|].
  cbv zeta. rewrite escrow_branch.
  destruct (lock_in_escrow _ _ _ _ db) as [[code message]|[x db1]] eqn:Hlock;
    [now left|].
  apply lock_in_escrow_inr in Hlock. destruct Hlock as (w & _ & _ & Hsave).
  apply Wallet_save_offers in Hsave. destruct Hsave as (_ & Ht1 & _).
  unfold P2PTrade_create.
  destruct (P2PTrade.validate _) eqn:Hv; cbn [snd]; [|now left].
  right. eexists. split; [|cbn; rewrite Ht1; reflexivity].
  unfold P2PTrade.validate in Hv.
  repeat (apply andb_prop in Hv; destruct Hv as [Hv ?]).
  now apply Qleb_le.
Qed.

Lemma step_store_ok s op db : store_ok db -> store_ok (step s op db).
Proof.
  intros (Hl & Hi & Ho & Ht).
  split; [now apply step_ok|]. split; [now apply step_ids|].
  split; [now apply step_offers_ok|].
  destruct op; simpl.
  - unfold createOffer. repeat (destruct_match; try exact Ht).
  - unfold updateOfferStatus. repeat (destruct_match; try exact Ht).
  - destruct (acceptOffer_trades s now user id amount paymentMethod db)
      as [->|(trade & Ha & ->)]; [exact Ht|].
    apply Forall_app. split; [exact Ht|]. now constructor.
  - destruct (updateTradeStatus_trades s now user id body db)
      as [_ [->|[u ->]]]; [exact Ht|].
    apply Forall_map. revert Ht. apply Forall_impl.
    intros t Hta. now destruct (_ =? _)%nat.
  - unfold createWallet. repeat (destruct_match; try exact Ht).
  - unfold updateWallet. repeat (destruct_match; try exact Ht).
  - unfold deleteWallet. repeat (destruct_match; try exact Ht).
  - unfold createDeposit. repeat (destruct_match; try exact Ht).
  - unfold confirmDeposit. repeat (destruct_match; try exact Ht).
Qed.

Lemma run_store_ok s ops db : store_ok db -> store_ok (run s ops db).
Proof.
  unfold run. revert db.
  induction ops as [|op ops IH]; intros db Hok; simpl; [exact Hok|].
  apply IH. now apply step_store_ok.
Qed.

Lemma reachable_store_ok s adm ops : store_ok (run s ops (empty_store adm)).
Proof.
  apply run_store_ok. repeat split; constructor.
Qed.

(** ** How an operation can rewrite the wallets *)

Lemma Wallet_save_saved new db db' :
  Wallet_save new db = Some db' ->
  Wallet.validate new = true /\ wallets db' = saved new (wallets db).
Proof.
  unfold Wallet_save. destruct (Wallet.validate new); [|discriminate].
  intro H. inversion H. now split.
Qed.

Lemma validate_lockedBalance w :
  Wallet.validate w = true -> 0 <= Wallet.lockedBalance w.
Proof. intro H. exact (proj2 (validate_nonneg w H)). Qed.

Lemma found_trade_amount s id db trade :
  Forall (fun t => 0 <= P2PTrade.amount t) (trades db) ->
  P2PTrade_findById s id db = Some trade -> 0 <= P2PTrade.amount trade.
Proof.
  intros Hok Hfind. apply findById_stored in Hfind.
  destruct Hfind as (stored & Hstored & ->). apply find_some in Hstored.
  exact (proj1 (Forall_forall _ _) Hok stored (proj1 Hstored)).
Qed.

Lemma held_declares s stored :
  truthy_flag (P2PTrade.escrowHeld (cast s stored)) = true ->
  declares s "escrowHeld" = true.
Proof.
  simpl. unfold strict. now destruct (declares s "escrowHeld").
Qed.

Lemma acceptOffer_move s now user id amount pm db escrow deposit :
  store_ok db ->
  ledger_move escrow deposit (next_id db) (wallets db)
    (wallets (snd (acceptOffer s now user id amount pm db))).
Proof.
  intros (_ & _ & Ho & _).
  destruct (acceptOffer_wallets s now user id amount pm db)
    as [->|(offer & w & x & Hfind & Hlo & Hdiv & Hin & Hx & _ & ->)];
    [constructor|].
  apply find_some in Hfind. destruct Hfind as [Hoffer _].
  destruct (proj1 (Forall_forall _ _) Ho offer Hoffer) as [Hm Hp].
  apply js_div_finite in Hdiv. destruct Hdiv as [Hnz ->].
  apply move_lock; [exact Hin| |exact Hx].
  apply quotient_nonneg; [|exact Hp|exact Hnz].
  now apply Qle_trans with (P2POffer.minLimit offer).
Qed.

Lemma updateTradeStatus_move s now user id body db deposit :
  store_ok db ->
  ledger_move (declares s "escrowHeld") deposit (next_id db) (wallets db)
    (wallets (snd (updateTradeStatus s now user id body db))).
Proof.
  intros ((Hw & _) & _ & _ & Ht). unfold updateTradeStatus, respond_updated.
  destruct (P2PTrade_findById s id db) as [trade|] eqn:Hfind; [|constructor].
  pose proof (found_trade_amount _ _ _ _ Ht Hfind) as Hamount.
  destruct (findById_stored _ _ _ _ Hfind) as (stored & _ & ->).
  destruct (negb _ && negb _); [constructor|].
  destruct (negb (includes _ _)); [constructor|].
  destruct (b_status body =? "completed").
  - destruct (truthy_flag _) eqn:Hheld; [|constructor].
    apply held_declares in Hheld.
    destruct (Wallet_findOne _ _ db) as [w|] eqn:Hfound; [|constructor].
    apply find_some in Hfound. destruct Hfound as [Hin _].
    destruct (Wallet_save _ db) as [db1|] eqn:Hsave; [|constructor].
    apply Wallet_save_saved in Hsave. destruct Hsave as [_ Hsaved].
    cbn [snd P2PTrade_findByIdAndUpdate set_trades wallets]. rewrite Hsaved.
    now apply move_release.
  - destruct (b_status body =? "cancelled"); [|constructor].
    destruct (truthy_flag _) eqn:Hheld; [|constructor].
    apply held_declares in Hheld.
    destruct (Wallet_findOne _ _ db) as [w|] eqn:Hfound; [|constructor].
    apply find_some in Hfound. destruct Hfound as [Hin _].
    destruct (Wallet_save _ db) as [db1|] eqn:Hsave; [|constructor].
    apply Wallet_save_saved in Hsave. destruct Hsave as [Hv Hsaved].
    cbn [snd P2PTrade_findByIdAndUpdate set_trades wallets]. rewrite Hsaved.
    apply move_unlock; try assumption.
    apply validate_lockedBalance in Hv. simpl in Hv.
    change (P2PTrade.amount (cast s stored)) with (P2PTrade.amount stored).
    lra.
Qed.

Lemma createWallet_move user body db escrow deposit :
  ledger_move escrow deposit (next_id db) (wallets db)
    (wallets (snd (createWallet user body db))).
Proof.
  unfold createWallet.
  destruct (_ || _); [constructor|].
  destruct (negb (includes _ _)) eqn:Hsup; [constructor|].
  destruct (existsb _ (wallets db)); [constructor|].
  destruct (match wb_label body with Some _ => _ | None => _ end); [constructor|].
  destruct (existsb (same_wallet_key _ _ _) (wallets db)) eqn:Hdup;
    cbn [snd notify bump set_wallets wallets].
  - apply move_defaults.
  - apply move_create; try reflexivity.
    + now apply negb_false_iff in Hsup.
    + intro Hin. apply in_map_iff in Hin. destruct Hin as (w & Hkey & Hin).
      assert (Hf : existsb (same_wallet_key user
                              (toUpperCase (wb_cryptocurrency body))
                              (wb_network body)) (wallets db) = true).
      { apply existsb_exists. exists w. split; [exact Hin|].
        unfold wallet_key in Hkey. simpl in Hkey. inversion Hkey as [[Hu Hc Hn]].
        unfold same_wallet_key.
        now rewrite Hu, Hc, Hn, Nat.eqb_refl, !String.eqb_refl. }
      congruence.
Qed.

Lemma deleteWallet_move user id db escrow deposit :
  ledger_move escrow deposit (next_id db) (wallets db)
    (wallets (snd (deleteWallet user id db))).
Proof.
  unfold deleteWallet.
  destruct (find _ (wallets db)) as [w|] eqn:Hfind; [|constructor].
  destruct (_ || _) eqn:Hfunds; [constructor|].
  apply find_some in Hfind. destruct Hfind as [Hin Hq].
  apply andb_prop in Hq. destruct Hq as [Hid _]. apply Nat.eqb_eq in Hid.
  apply orb_false_elim in Hfunds. destruct Hfunds as [Hb Hl].
  apply Qltb_ge in Hb, Hl.
  cbn [snd set_wallets wallets]. rewrite <- Hid. now apply move_delete.
Qed.

Lemma confirmDeposit_move depositId db escrow :
  ledger_ok db ->
  ledger_move escrow true (next_id db) (wallets db)
    (wallets (confirmDeposit depositId db)).
Proof.
  intros [_ Hd]. unfold confirmDeposit.
  destruct (find _ (deposits db)) as [d|] eqn:Hfind; [|constructor].
  apply find_some in Hfind. destruct Hfind as [Hin _].
  cbn [set_wallets set_deposits wallets]. apply move_credit; [reflexivity|].
  exact (proj1 (Forall_forall _ _) Hd d Hin).
Qed.

(** Every operation rewrites the wallets in one of the ways of
    [ledger_move]. *)
Lemma step_move s op db :
  store_ok db ->
  ledger_move (declares s "escrowHeld") (is_confirmation op) (next_id db)
    (wallets db) (wallets (step s op db)).
Proof.
  intro Hok. destruct op; simpl.
  - unfold createOffer. repeat (destruct_match; try constructor).
  - unfold updateOfferStatus. repeat (destruct_match; try constructor).
  - now apply acceptOffer_move.
  - now apply updateTradeStatus_move.
  - apply createWallet_move.
  - unfold updateWallet.
    destruct (find _ (wallets db)) as [w|] eqn:Hfind; [|constructor].
    apply find_some in Hfind. cbn [snd set_wallets wallets].
    apply move_relabel. tauto.
  - apply deleteWallet_move.
  - unfold createDeposit. repeat (destruct_match; try constructor).
  - apply confirmDeposit_move. apply Hok.
Qed.

Lemma run_snoc s ops op db : run s (ops ++ [op]) db = step s op (run s ops db).
Proof. unfold run. now rewrite fold_left_app. Qed.

(** ** One wallet for each user, cryptocurrency and network *)

Lemma pre_save_keys w ws :
  map wallet_key (wallet_pre_save w ws) = map wallet_key ws.
Proof.
  unfold wallet_pre_save. destruct (Wallet.isDefault w); [|reflexivity].
  rewrite map_map. apply map_ext. intro x. now destruct (_ && _).
Qed.

Lemma replace_keys old new ws :
  NoDup (map Wallet._id ws) -> In old ws ->
  Wallet._id new = Wallet._id old -> wallet_key new = wallet_key old ->
  map wallet_key (replace_wallet new ws) = map wallet_key ws.
Proof.
  intros Hnd Hin Hid Hkey. induction ws as [|a ws IH]; [reflexivity|].
  simpl in Hnd. inversion Hnd as [|? ? Hnotin Hnd']; subst. simpl.
  destruct (Nat.eqb_spec (Wallet._id a) (Wallet._id new)) as [E|E].
  - assert (a = old).
    { destruct Hin as [Ha|Hin]; [exact Ha|].
      exfalso. apply Hnotin. rewrite E, Hid. now apply in_map. }
    subst a. rewrite Hkey. f_equal.
    change (map (fun x => if (Wallet._id x =? Wallet._id new)%nat then new else x) ws)
      with (replace_wallet new ws).
    rewrite replace_wallet_absent; [reflexivity|now rewrite Hid].
  - destruct Hin as [Ha|Hin]; [subst a; now rewrite Hid in E|].
    f_equal. now apply IH.
Qed.

Lemma saved_keys old new ws :
  NoDup (map Wallet._id ws) -> In old ws ->
  Wallet._id new = Wallet._id old -> wallet_key new = wallet_key old ->
  map wallet_key (saved new ws) = map wallet_key ws.
Proof.
  intros Hnd Hin Hid Hkey. unfold saved.
  rewrite (replace_keys old new).
  - apply pre_save_keys.
  - now rewrite wallet_pre_save_ids.
  - apply In_pre_save; [exact Hin|now symmetry].
  - exact Hid.
  - exact Hkey.
Qed.

Lemma NoDup_map_filter {A B} (f : A -> B) (p : A -> bool) l :
  NoDup (map f l) -> NoDup (map f (filter p l)).
Proof.
  induction l as [|a l IH]; simpl; intro H; [constructor|].
  inversion H as [|? ? Hnotin Hnd]; subst.
  destruct (p a); simpl; [|now apply IH].
  constructor; [|now apply IH].
  intro Hin. apply Hnotin. apply in_map_iff in Hin.
  destruct Hin as (x & Hx & Hin). apply filter_In in Hin.
  rewrite <- Hx. apply in_map. tauto.
Qed.

Lemma move_keys escrow deposit next ws ws' :
  NoDup (map Wallet._id ws) -> NoDup (map wallet_key ws) ->
  ledger_move escrow deposit next ws ws' -> NoDup (map wallet_key ws').
Proof.
  intros Hnd Hkeys Hmove. destruct Hmove.
  - exact Hkeys.
  - now rewrite (saved_keys w (Wallet.lock w x)).
  - now rewrite (saved_keys w (Wallet.release w x)).
  - now rewrite (saved_keys w (Wallet.unlock w x)).
  - now rewrite pre_save_keys.
  - rewrite map_app, pre_save_keys. simpl.
    apply NoDup_app; [exact Hkeys | repeat constructor; simpl; tauto |].
    intros k Hk [<-|[]]. contradiction.
  - now rewrite (replace_keys w (Wallet.with_label w lb d)).
  - now apply NoDup_map_filter.
  - rewrite map_map.
    replace (map _ ws) with (map wallet_key ws); [exact Hkeys|].
    apply map_ext. intro w. now destruct (_ =? _)%nat.
Qed.

(** X4.  A user never has two wallets of the same cryptocurrency and
    network: in every store reached from the empty one the keys (user,
    cryptocurrency, network) of the wallets are pairwise distinct. *)
Theorem wallet_keys_distinct s adm ops :
  NoDup (map wallet_key (wallets (run s ops (empty_store adm)))).
Proof.
  induction ops as [|op ops IH] using rev_ind; [constructor|].
  rewrite run_snoc.
  pose proof (reachable_store_ok s adm ops) as Hok.
  exact (move_keys _ _ _ _ _ (proj1 (proj1 (proj2 Hok))) IH
           (step_move s op _ Hok)).
Qed.

(** ** Withdrawing an offer *)

Lemma find_owned id user offer os :
  find (fun o => (P2POffer._id o =? id)%nat) os = Some offer ->
  P2POffer.userId offer = user ->
  find (fun o => (P2POffer._id o =? id)%nat
                 && (P2POffer.userId o =? user)%nat) os = Some offer.
Proof.
  intros Hfind Hu. induction os as [|a os IH]; [discriminate|].
  simpl in *. destruct (P2POffer._id a =? id)%nat.
  - inversion Hfind; subst. now rewrite Nat.eqb_refl.
  - now apply IH.
Qed.

(** X8.  The owner withdraws an offer by setting a status other than
    'active' (any string is taken): from then on the offer answers
    every accept with 400 'Offer is not active', and is on no page of
    the listing. *)
Theorem withdrawn_offer_is_closed s id user status db offer :
  P2POffer_findById id db = Some offer ->
  P2POffer.userId offer = user ->
  status <> "active" ->
  fst (updateOfferStatus user id status db)
  = Json 200 (P2POffer.with_status offer status)
  /\ forall now acceptor amount pm q,
       let db1 := snd (updateOfferStatus user id status db) in
       acceptOffer s now acceptor id amount pm db1
       = (Fail 400 "Offer is not active", db1)
       /\ ~ In (P2POffer.with_status offer status) (p_offers (listOffers q db1)).
Proof.
  intros Hfind Hu Hs. unfold updateOfferStatus.
  rewrite (find_owned _ _ _ _ Hfind Hu). split; [reflexivity|].
  intros now acceptor amount pm q. cbn [snd].
  assert (Hfound : P2POffer_findById id
                     (P2POffer_save (P2POffer.with_status offer status) db)
                   = Some (P2POffer.with_status offer status)).
  { unfold P2POffer_findById, P2POffer_save in *. simpl.
    assert (Hid : P2POffer._id offer = id)
      by (apply find_some in Hfind; now apply Nat.eqb_eq).
    rewrite Hid.
    rewrite (find_map_update P2POffer._id
               (fun _ => P2POffer.with_status offer status)).
    - now rewrite Hfind.
    - intros _ _. exact Hid. }
  split.
  - unfold acceptOffer. rewrite Hfound. simpl.
    apply String.eqb_neq in Hs. now rewrite Hs.
  - intro Hin. apply listed_offer_matches in Hin. destruct Hin as [_ Hf].
    unfold offer_filter in Hf.
    repeat (apply andb_prop in Hf; destruct Hf as [Hf _]).
    simpl in Hf. apply String.eqb_eq in Hf. contradiction.
Qed.

Lemma withdrawn_offer_is_closed_witness :
  fst (updateOfferStatus 1 4 "cancelled" market)
  = Json 200 (P2POffer.with_status (posted_offer 4 "sell" 1000) "cancelled")
  /\ forall now acceptor amount pm q,
       let db1 := snd (updateOfferStatus 1 4 "cancelled" market) in
       acceptOffer p2pTradeSchema now acceptor 4 amount pm db1
       = (Fail 400 "Offer is not active", db1)
       /\ ~ In (P2POffer.with_status (posted_offer 4 "sell" 1000) "cancelled")
              (p_offers (listOffers q db1)).
Proof.
  apply (withdrawn_offer_is_closed p2pTradeSchema 4 1 "cancelled" market
           (posted_offer 4 "sell" 1000)).
  - reflexivity.
  - reflexivity.
  - discriminate.
Defined.

(** X9.  Only its owner changes the status of an offer: for a user who
    owns no offer of that identifier the request is answered 404 and
    the store is left as it was. *)
Theorem foreign_offer_status_refused id user status db :
  (forall o, In o (offers db) -> P2POffer._id o = id ->
             P2POffer.userId o <> user) ->
  updateOfferStatus user id status db = (Fail 404 "Offer not found", db).
Proof.
  intro Hforeign. unfold updateOfferStatus.
  assert (Hnone : find (fun o => (P2POffer._id o =? id)%nat
                                 && (P2POffer.userId o =? user)%nat)
                       (offers db) = None).
  { apply find_none_iff. intros o Hin.
    destruct (Nat.eqb_spec (P2POffer._id o) id) as [E|]; [|reflexivity].
    simpl. apply Nat.eqb_neq. now apply Hforeign. }
  now rewrite Hnone.
Qed.

Lemma foreign_offer_status_refused_witness :
  updateOfferStatus 2 4 "cancelled" market = (Fail 404 "Offer not found", market).
Proof.
  apply (foreign_offer_status_refused 4 2 "cancelled" market).
  intros o [<-|[<-|[]]]; simpl; intros _; lia.
Defined.

(** ** The listing of offers *)

Lemma insert_newest_In o x l :
  In x (insert_newest o l) <-> x = o \/ In x l.
Proof.
  split; [apply In_insert_newest|].
  induction l as [|a l IH]; simpl.
  - intros [->|[]]. now left.
  - destruct (P2POffer.createdAt a <? P2POffer.createdAt o)%Z; simpl.
    + intros [->|[->|H]]; auto.
    + intros [->|[->|H]]; auto.
Qed.

Lemma newest_first_In x l : In x (newest_first l) <-> In x l.
Proof.
  split; [apply In_newest_first|].
  induction l as [|a l IH]; simpl; [tauto|].
  intro H. apply insert_newest_In. destruct H as [->|H]; auto.
Qed.

Lemma insert_newest_sorted o l :
  StronglySorted not_older l -> StronglySorted not_older (insert_newest o l).
Proof.
  induction l as [|a l IH]; intro Hs; simpl.
  - repeat constructor.
  - apply StronglySorted_inv in Hs. destruct Hs as [Hs Ha].
    destruct (P2POffer.createdAt a <? P2POffer.createdAt o)%Z eqn:E.
    + apply Z.ltb_lt in E. constructor; [now constructor|].
      constructor; [unfold not_older; lia|].
      revert Ha. apply Forall_impl. unfold not_older. intros y Hy. lia.
    + apply Z.ltb_ge in E. constructor; [now apply IH|].
      apply Forall_forall. intros y Hy. apply insert_newest_In in Hy.
      destruct Hy as [->|Hy]; [exact E|].
      exact (proj1 (Forall_forall _ _) Ha y Hy).
Qed.

Lemma newest_first_sorted l : StronglySorted not_older (newest_first l).
Proof.
  induction l as [|a l IH]; simpl; [constructor|].
  now apply insert_newest_sorted.
Qed.

Lemma skipn_sorted {A} (R : A -> A -> Prop) k l :
  StronglySorted R l -> StronglySorted R (skipn k l).
Proof.
  revert l. induction k as [|k IH]; intros l Hs; [exact Hs|].
  destruct l as [|a l]; [constructor|]. simpl.
  apply IH. now apply StronglySorted_inv in Hs.
Qed.

Lemma firstn_sorted {A} (R : A -> A -> Prop) n l :
  StronglySorted R l -> StronglySorted R (firstn n l).
Proof.
  revert l. induction n as [|n IH]; intros l Hs; [constructor|].
  destruct l as [|a l]; [constructor|]. simpl.
  apply StronglySorted_inv in Hs. destruct Hs as [Hs Ha].
  constructor; [now apply IH|].
  apply Forall_forall. intros y Hy.
  apply (proj1 (Forall_forall _ _) Ha).
  rewrite <- (firstn_skipn n l). apply in_or_app. now left.
Qed.

Lemma limited_sorted {A} (R : A -> A -> Prop) n l :
  StronglySorted R l -> StronglySorted R (limited n l).
Proof.
  intro Hs. unfold limited. destruct (n =? 0)%nat; [exact Hs|].
  now apply firstn_sorted.
Qed.

(** X10.  A page of [GET /offers] is ordered newest first and holds
    only stored offers that match the filter.  With a limit other than
    0 it holds at most [limit] offers; with the limit 0, which the
    store takes as no limit, it holds every match. *)
Theorem offer_page_is_sorted_and_bounded q db :
  StronglySorted not_older (p_offers (listOffers q db))
  /\ (forall o, In o (p_offers (listOffers q db)) ->
                In o (offers db) /\ offer_filter q o = true)
  /\ (q_limit q <> 0%N ->
      (List.length (p_offers (listOffers q db)) <= N.to_nat (q_limit q))%nat)
  /\ (q_limit q = 0%N ->
      forall o, In o (offers db) -> offer_filter q o = true ->
                In o (p_offers (listOffers q db))).
Proof.
  split; [|split; [|split]].
  - unfold listOffers. simpl.
    apply limited_sorted, skipn_sorted, newest_first_sorted.
  - intros o. apply listed_offer_matches.
  - intro Hl. unfold listOffers, limited. simpl.
    destruct (Nat.eqb_spec (N.to_nat (q_limit q)) 0) as [E|_]; [lia|].
    apply firstn_le_length.
  - intros Hl o Hin Hf. unfold listOffers, limited. simpl. rewrite Hl.
    simpl. rewrite Nat.mul_0_r. simpl.
    apply newest_first_In, filter_In. now split.
Qed.

Lemma nth_error_page {A} (l : list A) i x limit :
  (0 < limit)%nat -> nth_error l i = Some x ->
  In x (firstn limit (skipn ((i / limit) * limit) l)).
Proof.
  intros Hl Hnth. apply (nth_error_In _ (i mod limit)).
  rewrite nth_error_firstn.
  assert (Hlt : (i mod limit < limit)%nat) by (apply Nat.mod_upper_bound; lia).
  apply Nat.ltb_lt in Hlt. rewrite Hlt, nth_error_skipn.
  replace (i / limit * limit + i mod limit)%nat with i; [exact Hnth|].
  rewrite (Nat.div_mod_eq i limit) at 1. lia.
Qed.

(** X11.  The pages of [GET /offers] leave nothing out: every stored
    offer that matches the filter is on some page of the listing. *)
Theorem every_matching_offer_is_on_a_page q db offer :
  In offer (offers db) -> offer_filter q offer = true ->
  exists page, In offer (p_offers (listOffers (set_page q page) db)).
Proof.
  intros Hin Hf.
  assert (Hsorted : In offer (newest_first (filter (offer_filter q) (offers db)))).
  { apply newest_first_In, filter_In. now split. }
  destruct (N.eq_dec (q_limit q) 0) as [Hl|Hl].
  - exists 1%positive.
    unfold listOffers, limited. cbn [p_offers set_page q_page q_limit].
    rewrite Hl. exact Hsorted.
  - apply In_nth_error in Hsorted. destruct Hsorted as [i Hi].
    exists (Pos.of_nat (S (i / N.to_nat (q_limit q)))).
    unfold listOffers, limited. cbn [p_offers set_page q_page q_limit].
    destruct (Nat.eqb_spec (N.to_nat (q_limit q)) 0) as [E|_]; [lia|].
    rewrite Nat2Pos.id by discriminate.
    replace (S (i / N.to_nat (q_limit q)) - 1)%nat
      with (i / N.to_nat (q_limit q))%nat by lia.
    apply nth_error_page; [lia|exact Hi].
Qed.

Lemma every_matching_offer_is_on_a_page_witness :
  exists page,
    In (posted_offer 4 "sell" 1000)
       (p_offers (listOffers (set_page one_per_page page) market)).
Proof.
  apply (every_matching_offer_is_on_a_page one_per_page market
           (posted_offer 4 "sell" 1000)).
  - simpl. now left.
  - reflexivity.
Defined.

(** ** A lock is never taken back *)

Lemma wallet_of_map id (f : Wallet.t -> Wallet.t) ws :
  (forall x, Wallet._id (f x) = Wallet._id x) ->
  wallet_of id (map f ws) = option_map f (wallet_of id ws).
Proof.
  intro Hid. unfold wallet_of. induction ws as [|a ws IH]; [reflexivity|].
  simpl. rewrite Hid. now destruct (Wallet._id a =? id)%nat.
Qed.

Lemma wallet_of_In id ws w :
  wallet_of id ws = Some w -> In w ws /\ Wallet._id w = id.
Proof.
  intro H. apply find_some in H. split; [tauto|]. now apply Nat.eqb_eq.
Qed.

Lemma wallet_of_unique ws w :
  NoDup (map Wallet._id ws) -> In w ws -> wallet_of (Wallet._id w) ws = Some w.
Proof.
  intros Hnd Hin. unfold wallet_of. induction ws as [|a ws IH]; [destruct Hin|].
  simpl in *. inversion Hnd as [|? ? Hnotin Hnd']; subst.
  destruct (Nat.eqb_spec (Wallet._id a) (Wallet._id w)) as [E|E].
  - destruct Hin as [->|Hin]; [reflexivity|].
    exfalso. apply Hnotin. rewrite E. now apply in_map.
  - destruct Hin as [->|Hin]; [congruence|]. now apply IH.
Qed.

Lemma wallet_of_pre_save id w ws :
  option_map Wallet.lockedBalance (wallet_of id (wallet_pre_save w ws))
  = option_map Wallet.lockedBalance (wallet_of id ws)
  /\ option_map Wallet.balance (wallet_of id (wallet_pre_save w ws))
     = option_map Wallet.balance (wallet_of id ws).
Proof.
  unfold wallet_pre_save. destruct (Wallet.isDefault w); [|now split].
  rewrite wallet_of_map by (intro x; now destruct (_ && _)).
  destruct (wallet_of id ws) as [x|]; [|now split].
  simpl. now destruct (_ && _).
Qed.

(** The wallet [id] after the save of [new] over [old]. *)
Lemma wallet_of_saved id old new ws :
  NoDup (map Wallet._id ws) -> In old ws -> Wallet._id new = Wallet._id old ->
  (id = Wallet._id old /\ wallet_of id (saved new ws) = Some new)
  \/ (id <> Wallet._id old
      /\ option_map Wallet.lockedBalance (wallet_of id (saved new ws))
         = option_map Wallet.lockedBalance (wallet_of id ws)
      /\ option_map Wallet.balance (wallet_of id (saved new ws))
         = option_map Wallet.balance (wallet_of id ws)).
Proof.
  intros Hnd Hin Hid. unfold saved, replace_wallet.
  rewrite wallet_of_map.
  2: { intro x. destruct (Nat.eqb_spec (Wallet._id x) (Wallet._id new));
         congruence. }
  destruct (Nat.eq_dec id (Wallet._id old)) as [E|E].
  - left. split; [exact E|].
    assert (Hpre : In old (wallet_pre_save new ws))
      by (apply In_pre_save; [exact Hin|now symmetry]).
    assert (Hnd' : NoDup (map Wallet._id (wallet_pre_save new ws)))
      by now rewrite wallet_pre_save_ids.
    rewrite E, (wallet_of_unique _ _ Hnd' Hpre). simpl.
    now rewrite Hid, Nat.eqb_refl.
  - right. split; [exact E|].
    destruct (wallet_of_pre_save id new ws) as [Hl Hb].
    destruct (wallet_of id (wallet_pre_save new ws)) as [x|] eqn:Hx;
      [|now split].
    apply wallet_of_In in Hx. destruct Hx as [_ Hx].
    simpl. destruct (Nat.eqb_spec (Wallet._id x) (Wallet._id new)) as [E'|E'];
      [congruence|]. now split.
Qed.

Lemma wallet_of_replace id old new ws :
  NoDup (map Wallet._id ws) -> In old ws -> Wallet._id new = Wallet._id old ->
  (id = Wallet._id old /\ wallet_of id (replace_wallet new ws) = Some new)
  \/ (id <> Wallet._id old
      /\ wallet_of id (replace_wallet new ws) = wallet_of id ws).
Proof.
  intros Hnd Hin Hid. unfold replace_wallet.
  rewrite wallet_of_map.
  2: { intro x. destruct (Nat.eqb_spec (Wallet._id x) (Wallet._id new));
         congruence. }
  destruct (Nat.eq_dec id (Wallet._id old)) as [E|E].
  - left. split; [exact E|].
    rewrite E, (wallet_of_unique _ _ Hnd Hin). simpl.
    now rewrite Hid, Nat.eqb_refl.
  - right. split; [exact E|].
    destruct (wallet_of id ws) as [x|] eqn:Hx; [|reflexivity].
    apply wallet_of_In in Hx. destruct Hx as [_ Hx].
    simpl. destruct (Nat.eqb_spec (Wallet._id x) (Wallet._id new)) as [E'|E'];
      [congruence|reflexivity].
Qed.

Lemma wallet_of_app id w ws :
  wallet_of id (ws ++ [w])
  = match wallet_of id ws with
    | Some x => Some x
    | None => if (Wallet._id w =? id)%nat then Some w else None
    end.
Proof.
  unfold wallet_of. induction ws as [|a ws IH]; simpl.
  - reflexivity.
  - destruct (Wallet._id a =? id)%nat; [reflexivity|exact IH].
Qed.

Lemma wallet_of_filter id id' ws :
  wallet_of id (filter (fun x => negb (Wallet._id x =? id')%nat) ws)
  = if (id =? id')%nat then None else wallet_of id ws.
Proof.
  unfold wallet_of. induction ws as [|a ws IH]; simpl.
  - now destruct (id =? id')%nat.
  - destruct (Nat.eqb_spec (Wallet._id a) id') as [E|E]; simpl.
    + rewrite IH. destruct (Nat.eqb_spec id id') as [E'|E']; [reflexivity|].
      destruct (Nat.eqb_spec (Wallet._id a) id); [congruence|reflexivity].
    + destruct (Nat.eqb_spec (Wallet._id a) id) as [E'|E'].
      * destruct (Nat.eqb_spec id id'); [congruence|reflexivity].
      * exact IH.
Qed.

Lemma same_locked (a b : option Wallet.t) :
  option_map Wallet.lockedBalance a = option_map Wallet.lockedBalance b ->
  match b with Some w => Wallet.lockedBalance w | None => 0 end
  <= match a with Some w => Wallet.lockedBalance w | None => 0 end.
Proof.
  destruct a, b; simpl; intro H; try discriminate H; [|apply Qle_refl].
  inversion H as [E]. rewrite E. apply Qle_refl.
Qed.

Lemma move_locked id deposit next ws ws' :
  NoDup (map Wallet._id ws) -> Forall wallet_nonneg ws ->
  ledger_move false deposit next ws ws' ->
  locked_of id ws <= locked_of id ws'.
Proof.
  intros Hnd Hok Hmove. unfold locked_of.
  destruct Hmove; try discriminate.
  - apply Qle_refl.
  - destruct (wallet_of_saved id w (Wallet.lock w x) ws Hnd H eq_refl)
      as [[-> ->]|(_ & Hl & _)].
    + rewrite (wallet_of_unique _ _ Hnd H). simpl. lra.
    + now apply same_locked.
  - destruct (wallet_of_pre_save id w ws) as [Hl _]. now apply same_locked.
  - rewrite wallet_of_app.
    destruct (wallet_of_pre_save id w ws) as [Hl _].
    destruct (wallet_of id (wallet_pre_save w ws)) as [y|] eqn:Hy.
    + exact (same_locked (Some y) _ Hl).
    + destruct (wallet_of id ws); [discriminate|].
      destruct (Wallet._id w =? id)%nat; [rewrite H1|]; apply Qle_refl.
  - destruct (wallet_of_replace id w (Wallet.with_label w lb d) ws Hnd H eq_refl)
      as [[-> ->]|(_ & ->)]; [|apply Qle_refl].
    rewrite (wallet_of_unique _ _ Hnd H). apply Qle_refl.
  - rewrite wallet_of_filter.
    destruct (Nat.eqb_spec id (Wallet._id w)) as [->|_]; [|apply Qle_refl].
    now rewrite (wallet_of_unique _ _ Hnd H).
  - rewrite wallet_of_map by (intro y; now destruct (_ =? _)%nat).
    destruct (wallet_of id ws) as [y|]; [|apply Qle_refl].
    simpl. destruct (_ =? _)%nat; apply Qle_refl.
Qed.

(** X12.  With the trade model as the source declares it, the locked
    balance of a wallet never goes down: whatever operation follows a
    run from the empty store, every wallet has at least as much locked
    after it as before.  What an accept has locked stays locked. *)
Theorem locked_balance_never_decreases adm ops op id :
  locked id (run p2pTradeSchema ops (empty_store adm))
  <= locked id (run p2pTradeSchema (ops ++ [op]) (empty_store adm)).
Proof.
  rewrite run_snoc.
  pose proof (reachable_store_ok p2pTradeSchema adm ops) as Hok.
  exact (move_locked id _ _ _ _ (proj1 (proj1 (proj2 Hok)))
           (proj1 (proj1 Hok)) (step_move p2pTradeSchema op _ Hok)).
Qed.

(** ** Deposits *)

Lemma Wallet_save_deposits new db db' :
  Wallet_save new db = Some db' ->
  deposits db' = deposits db /\ next_id db' = next_id db.
Proof.
  unfold Wallet_save. destruct (Wallet.validate new); [|discriminate].
  intro H. inversion H. now split.
Qed.

Lemma deposits_fresh_same db db' :
  deposits db' = deposits db -> (next_id db <= next_id db')%nat ->
  deposits_fresh db -> deposits_fresh db'.
Proof.
  unfold deposits_fresh. intros -> Hle. apply Forall_impl. intros d Hd. lia.
Qed.

Lemma step_deposits_fresh s op db :
  deposits_fresh db -> deposits_fresh (step s op db).
Proof.
  intro Hok. destruct op; simpl.
  - unfold createOffer. repeat (destruct_match; try exact Hok); simpl.
    apply (deposits_fresh_same db); [reflexivity|simpl; lia|exact Hok].
  - unfold updateOfferStatus. repeat (destruct_match; try exact Hok).
  - destruct (acceptOffer_store s now user id amount paymentMethod db)
      as [->|(w & x & db1 & _ & Hsave & [->|(db2 & _ & Hd & Hn & _ & Hd' & Hn')])];
      [exact Hok| |]; apply Wallet_save_deposits in Hsave;
      destruct Hsave as [Hsd Hsn]; apply (deposits_fresh_same db);
      try exact Hok; try congruence; lia.
  - unfold updateTradeStatus, respond_updated.
    repeat (destruct_match; try exact Hok); simpl;
      try match goal with
      | Hs : Wallet_save _ _ = Some _ |- _ =>
        apply Wallet_save_deposits in Hs; destruct Hs as [Hsd Hsn]
      end;
      apply (deposits_fresh_same db); try exact Hok; simpl;
      try congruence; try reflexivity; lia.
  - unfold createWallet. repeat (destruct_match; try exact Hok); simpl.
    apply (deposits_fresh_same db); [reflexivity|simpl; lia|exact Hok].
  - unfold updateWallet. repeat (destruct_match; try exact Hok).
  - unfold deleteWallet. repeat (destruct_match; try exact Hok).
  - unfold createDeposit. repeat (destruct_match; try exact Hok); simpl.
    unfold deposits_fresh in *. simpl. apply Forall_app. split.
    + revert Hok. apply Forall_impl. intros d Hd. lia.
    + constructor; [simpl; lia|constructor].
  - unfold confirmDeposit. destruct (find _ (deposits db)); [|exact Hok].
    unfold deposits_fresh in *. simpl. apply Forall_map.
    revert Hok. apply Forall_impl. intros d Hd. now destruct (_ =? _)%nat.
Qed.

Lemma reachable_deposits_fresh s adm ops :
  deposits_fresh (run s ops (empty_store adm)).
Proof.
  induction ops as [|op ops IH] using rev_ind; [constructor|].
  rewrite run_snoc. now apply step_deposits_fresh.
Qed.

(** X13.  A deposit that [POST /deposits] accepts in a store reached
    from the empty one is pending, carries the requested amount and
    goes to a wallet of the caller; its confirmation, run next, adds
    that amount to the wallet's available balance and leaves the
    locked balance as it was. *)
Theorem confirmed_deposit_is_credited s adm ops user walletId amount txHash
  deposit db1 :
  createDeposit user walletId amount txHash (run s ops (empty_store adm))
  = (Json 201 deposit, db1) ->
  Deposit.amount deposit = amount
  /\ Deposit.status deposit = "pending"
  /\ (exists wallet,
        Wallet_findById walletId (run s ops (empty_store adm)) = Some wallet
        /\ Wallet.userId wallet = user)
  /\ available walletId (confirmDeposit (Deposit._id deposit) db1)
     == available walletId (run s ops (empty_store adm)) + amount
  /\ locked walletId (confirmDeposit (Deposit._id deposit) db1)
     == locked walletId (run s ops (empty_store adm)).
Proof.
  pose proof (reachable_deposits_fresh s adm ops) as Hfresh.
  pose proof (reachable_ids_distinct s adm ops) as Hnd.
  set (db := run s ops (empty_store adm)) in *.
  unfold createDeposit. intro H.
  destruct (falsy_number amount) eqn:Hzero; [discriminate|].
  destruct (find _ (wallets db)) as [wallet|] eqn:Hfind; [|discriminate].
  destruct (_ && _); [discriminate|].
  destruct (Qltb amount 0) eqn:Hneg; [discriminate|].
  inversion H; subst deposit db1; clear H.
  apply find_some in Hfind. destruct Hfind as [Hin Hq].
  apply andb_prop in Hq. destruct Hq as [Hid Hu].
  apply Nat.eqb_eq in Hid, Hu.
  assert (Hw : wallet_of walletId (wallets db) = Some wallet)
    by (rewrite <- Hid; now apply wallet_of_unique).
  split; [reflexivity|]. split; [reflexivity|].
  split; [exists wallet; now split|].
  unfold confirmDeposit. cbn [Deposit._id bump set_deposits deposits wallets].
  assert (Hpending :
            find (fun d => (Deposit._id d =? next_id db)%nat
                           && (Deposit.status d =? "pending"))
                 (deposits db ++ [Deposit.mk (next_id db) user
                                    (Wallet._id wallet) amount txHash "pending"])
            = Some (Deposit.mk (next_id db) user (Wallet._id wallet) amount
                      txHash "pending")).
  { unfold deposits_fresh in Hfresh.
    induction (deposits db) as [|d ds IH]; simpl.
    - now rewrite Nat.eqb_refl.
    - inversion Hfresh as [|? ? Hd Hds]; subst.
      destruct (Nat.eqb_spec (Deposit._id d) (next_id db)) as [E|E]; [lia|].
      simpl. now apply IH. }
  rewrite Hpending. unfold available, locked, Wallet_findById.
  cbn [set_wallets set_deposits wallets Deposit.walletId Deposit.amount].
  fold (wallet_of walletId (wallets db)).
  match goal with
  | |- context [find ?p (map ?f (wallets db))] =>
    change (find p (map f (wallets db)))
      with (wallet_of walletId (map f (wallets db)))
  end.
  rewrite wallet_of_map by (intro y; now destruct (_ =? _)%nat).
  rewrite Hw. simpl. rewrite Hid, Nat.eqb_refl. simpl.
  split; reflexivity.
Qed.

Lemma confirmed_deposit_is_credited_witness :
  available 1 (confirmDeposit 6 (snd (createDeposit 2 1 2 None market)))
  == available 1 market + 2.
Proof.
  refine (proj1 (proj2 (proj2 (proj2
            (confirmed_deposit_is_credited p2pTradeSchema [9%nat] (opening 1)
               2 1 2 None (Deposit.mk 6 2 1 2 None "pending")
               (snd (createDeposit 2 1 2 None market)) _))))).
  vm_compute; reflexivity.
Defined.

(** ** Who may touch a wallet or a trade *)

Lemma foreign_wallet_not_found db user id w :
  NoDup (map Wallet._id (wallets db)) ->
  Wallet_findById id db = Some w -> Wallet.userId w <> user ->
  find (fun x => (Wallet._id x =? id)%nat && (Wallet.userId x =? user)%nat)
       (wallets db) = None.
Proof.
  intros Hnd Hw Hu. apply find_none_iff. intros x Hin.
  destruct (Nat.eqb_spec (Wallet._id x) id) as [E|]; [|reflexivity].
  simpl. apply Nat.eqb_neq. intro Hx.
  apply (wallet_of_unique _ _ Hnd) in Hin. rewrite E in Hin.
  unfold Wallet_findById in Hw. unfold wallet_of in Hin. congruence.
Qed.

(** X14.  In a store reached from the empty one, the wallet of another
    user is out of reach: relabelling it and deleting it are answered
    404; a deposit on it is answered 400 when its amount is 0 and 404
    otherwise; and none of the three requests writes anything. *)
Theorem foreign_wallet_is_out_of_reach s adm ops user id w label isDefault
  amount txHash :
  Wallet_findById id (run s ops (empty_store adm)) = Some w ->
  Wallet.userId w <> user ->
  updateWallet user id label isDefault (run s ops (empty_store adm))
  = (Fail 404 "Wallet not found", run s ops (empty_store adm))
  /\ deleteWallet user id (run s ops (empty_store adm))
     = (Fail 404 "Wallet not found", run s ops (empty_store adm))
  /\ createDeposit user id amount txHash (run s ops (empty_store adm))
     = (if Qeq_bool amount 0
        then Fail 400 "Wallet ID and amount are required"
        else Fail 404 "Wallet not found",
        run s ops (empty_store adm)).
Proof.
  intros Hw Hu.
  pose proof (foreign_wallet_not_found _ user id w
                (reachable_ids_distinct s adm ops) Hw Hu) as Hnone.
  unfold updateWallet, deleteWallet, createDeposit. rewrite Hnone.
  repeat split. unfold falsy_number. now destruct (Qeq_bool amount 0).
Qed.

Lemma foreign_wallet_is_out_of_reach_witness :
  updateWallet 2 0 (Some "mine") (Some true) market
  = (Fail 404 "Wallet not found", market)
  /\ deleteWallet 2 0 market = (Fail 404 "Wallet not found", market)
  /\ createDeposit 2 0 5 None market = (Fail 404 "Wallet not found", market).
Proof.
  rewrite <- market_reachable.
  apply (foreign_wallet_is_out_of_reach p2pTradeSchema [9%nat] (opening 1) 2 0
           (btc_wallet 0 1 3 0 3) (Some "mine") (Some true) 5 None).
  - reflexivity.
  - simpl; lia.
Defined.

(** X15.  A user who is neither the buyer nor the seller of a trade
    cannot change it: the status request is answered 403 whatever its
    body, and nothing is written. *)
Theorem outsider_cannot_update_trade s now user id body db trade :
  P2PTrade_findById s id db = Some trade ->
  P2PTrade.buyerId trade <> user ->
  P2PTrade.sellerId trade <> user ->
  updateTradeStatus s now user id body db = (Fail 403 "Not authorized", db).
Proof.
  intros Hfind Hb Hs. unfold updateTradeStatus. rewrite Hfind.
  apply Nat.eqb_neq in Hb, Hs. now rewrite Hb, Hs.
Qed.

Lemma outsider_cannot_update_trade_witness :
  updateTradeStatus IP2PTrade 9000 3 7 (status_body "completed")
    (store_with_trade held_trade)
  = (Fail 403 "Not authorized", store_with_trade held_trade).
Proof.
  apply (outsider_cannot_update_trade IP2PTrade 9000 3 7
           (status_body "completed") (store_with_trade held_trade) held_trade).
  - reflexivity.
  - simpl; lia.
  - simpl; lia.
Defined.

(** ** What a status update leaves alone *)

Lemma same_terms_update s u t : same_terms t (apply_update s u t).
Proof. repeat split. Qed.

Lemma same_terms_refl t : same_terms t t.
Proof. repeat split. Qed.

(** X16.  A status request never rewrites the terms of a trade: after
    it the store holds the same trades in the same order, each with the
    identifier, offer, parties, currencies, amounts, price and payment
    method it had; the trades of another identifier are left exactly as
    they were, and so are the offers. *)
Theorem status_update_keeps_trade_terms s now user id body db :
  Forall2 (fun t t' => same_terms t t' /\ (P2PTrade._id t <> id -> t' = t))
          (trades db)
          (trades (snd (updateTradeStatus s now user id body db)))
  /\ offers (snd (updateTradeStatus s now user id body db)) = offers db.
Proof.
  destruct (updateTradeStatus_trades s now user id body db)
    as [Ho [Ht|[u Ht]]]; split; try exact Ho; rewrite Ht; clear Ht Ho.
  - induction (trades db) as [|t ts IH]; [constructor|].
    constructor; [|exact IH].
    split; [apply same_terms_refl|reflexivity].
  - induction (trades db) as [|t ts IH]; [constructor|].
    simpl. constructor; [|exact IH].
    destruct (Nat.eqb_spec (P2PTrade._id t) id) as [E|E].
    + split; [apply same_terms_update|]. intro H. now destruct H.
    + split; [apply same_terms_refl|reflexivity].
Qed.

(** ** The trade an accepted offer creates *)

(** X18.  The trade that a successful accept answers takes its terms
    from the offer and the request: the offer's identifier, currencies
    (in upper case) and price, the requested fiat amount as
    [totalFiat], the quotient of that amount by the price as its crypto
    amount and as its [escrowAmount], a payment method of the offer,
    the status pending and the next identifier of the store; buyer and
    seller are two different users, one of them the caller; and the
    buyer, the seller and every admin are notified, in that order. *)
Theorem accepted_trade_terms s now user id amount pm db trade db' :
  acceptOffer s now user id amount pm db = (Json 201 trade, db') ->
  exists offer,
    P2POffer_findById id db = Some offer
    /\ P2PTrade._id trade = next_id db
    /\ P2PTrade.offerId trade = id
    /\ P2PTrade.cryptocurrency trade = toUpperCase (P2POffer.cryptocurrency offer)
    /\ P2PTrade.fiatCurrency trade = toUpperCase (P2POffer.fiatCurrency offer)
    /\ P2PTrade.price trade = P2POffer.price offer
    /\ P2PTrade.totalFiat trade = amount
    /\ js_div amount (P2POffer.price offer) = Finite (P2PTrade.amount trade)
    /\ P2PTrade.escrowAmount trade = P2PTrade.amount trade
    /\ P2PTrade.paymentMethod trade = pm
    /\ In pm (P2POffer.paymentMethods offer)
    /\ P2PTrade.status trade = "pending"
    /\ P2PTrade.buyerId trade <> P2PTrade.sellerId trade
    /\ (P2PTrade.buyerId trade = user \/ P2PTrade.sellerId trade = user)
    /\ notifications db'
       = (notifications db ++ trade_started trade db)%list.
Proof.
  unfold acceptOffer. intro H.
  destruct (P2POffer_findById id db) as [offer|] eqn:Hfind; [|discriminate].
  destruct (negb (P2POffer.status offer =? "active")); [discriminate|].
  destruct (P2POffer.userId offer =? user)%nat eqn:Hown; [discriminate|].
  destruct (Qltb amount (P2POffer.minLimit offer)
            || Qltb (P2POffer.maxLimit offer) amount); [discriminate|].
  destruct (negb (includes (P2POffer.paymentMethods offer) pm)) eqn:Hpm;
    [discriminate|].
  cbv zeta in H. rewrite escrow_branch in H.
  destruct (lock_in_escrow _ _ _ _ db) as [[code message]|[x db1]] eqn:Hlock;
    [discriminate|].
  apply lock_in_escrow_inr in Hlock. destruct Hlock as (w & Hdiv & _ & Hsave).
  unfold Wallet_save in Hsave.
  destruct (Wallet.validate (Wallet.lock w x)); [|discriminate].
  inversion Hsave; subst db1; clear Hsave.
  unfold P2PTrade_create in H.
  destruct (P2PTrade.validate _); [|discriminate].
  inversion H; subst trade db'; clear H.
  apply negb_false_iff, includes_In in Hpm.
  apply Nat.eqb_neq in Hown.
  pose proof Hfind as Hid. unfold P2POffer_findById in Hid.
  apply find_some in Hid. destruct Hid as [_ Hid]. apply Nat.eqb_eq in Hid.
  exists offer. cbn.
  repeat split; try assumption; try reflexivity.
  - destruct (P2POffer.type offer =? "sell"); congruence.
  - destruct (P2POffer.type offer =? "sell"); [left|right]; reflexivity.
Qed.

Lemma accepted_trade_terms_witness :
  exists offer,
    P2POffer_findById 4 market = Some offer
    /\ P2PTrade.price market_trade = P2POffer.price offer
    /\ js_div 5000 (P2POffer.price offer)
       = Finite (P2PTrade.amount market_trade).
Proof.
  destruct (accepted_trade_terms p2pTradeSchema 5000 2 4 5000 "bank_transfer"
              market market_trade
              (snd (acceptOffer p2pTradeSchema 5000 2 4 5000 "bank_transfer"
                      market)) eq_refl)
    as (offer & Hfind & _ & _ & _ & _ & Hprice & _ & Hquotient & _).
  exists offer. split; [exact Hfind|split; [exact Hprice|exact Hquotient]].
Defined.

(** ** The default wallet *)

(** X19.  In a store reached from the empty one, a wallet created with
    [isDefault] is stored as a default and is then the only default
    wallet of its user for its cryptocurrency. *)
Theorem new_default_wallet_is_the_only_default s adm ops user body wallet db' :
  createWallet user body (run s ops (empty_store adm)) = (Json 201 wallet, db') ->
  wb_isDefault body = true ->
  In wallet (wallets db')
  /\ Wallet.isDefault wallet = true
  /\ forall w, In w (wallets db') ->
               Wallet.userId w = Wallet.userId wallet ->
               Wallet.cryptocurrency w = Wallet.cryptocurrency wallet ->
               Wallet.isDefault w = true -> w = wallet.
Proof.
  pose proof (reachable_store_ok s adm ops) as Hok.
  set (db := run s ops (empty_store adm)) in *.
  destruct Hok as [_ [[_ Hlt] _]].
  unfold createWallet.
  repeat (destruct_match; try discriminate).
  intros H Hdef. injection H as <- <-.
  cbn [notify bump set_wallets wallets]. rewrite Hdef.
  split; [apply in_or_app; right; now left|].
  split; [reflexivity|].
  intros w Hin Hu Hc Hd. apply in_app_or in Hin.
  destruct Hin as [Hin|[<-|[]]]; [|reflexivity].
  exfalso. unfold wallet_pre_save in Hin. cbn [Wallet.isDefault] in Hin.
  apply in_map_iff in Hin. destruct Hin as (x & Hx & Hin).
  assert (Hfresh : (Wallet._id x =? next_id db)%nat = false).
  { apply Nat.eqb_neq. rewrite Forall_forall in Hlt.
    specialize (Hlt (Wallet._id x) (in_map _ _ _ Hin)). lia. }
  cbn [Wallet._id Wallet.userId Wallet.cryptocurrency] in Hx, Hu, Hc.
  rewrite Hfresh in Hx. cbn [negb] in Hx. rewrite andb_true_r in Hx.
  destruct (_ && _) eqn:Hkey in Hx.
  - subst w. simpl in Hd. discriminate.
  - subst w. rewrite Hu, Hc, Nat.eqb_refl, String.eqb_refl in Hkey.
    discriminate.
Qed.

Lemma new_default_wallet_is_the_only_default_witness :
  In testnet_wallet
     (wallets (snd (createWallet 1 testnet_wallet_body market))).
Proof.
  refine (proj1 (new_default_wallet_is_the_only_default p2pTradeSchema
                   [9%nat] (opening 1) 1 testnet_wallet_body testnet_wallet
                   (snd (createWallet 1 testnet_wallet_body market)) _ _)).
  - vm_compute; reflexivity.
  - reflexivity.
Defined.

(** ** Generated addresses *)

Lemma prefix_append p rest : String.prefix p (p ++ rest) = true.
Proof.
  induction p as [|c p IH]; simpl; [now destruct rest|].
  destruct (ascii_dec c c) as [_|E]; [exact IH|now destruct E].
Qed.

Lemma length_append a b :
  String.length (a ++ b) = (String.length a + String.length b)%nat.
Proof. induction a as [|c a IH]; simpl; [reflexivity|now rewrite IH]. Qed.

Lemma length_substring n m :
  (n <= String.length m)%nat -> String.length (substring 0 n m) = n.
Proof.
  revert m. induction n as [|n IH]; intros [|c m] H; simpl in *;
    try reflexivity; try lia.
  rewrite IH; [reflexivity|lia].
Qed.

Lemma generated_length sha256 cryptocurrency network publicKey :
  (forall m, String.length (sha256 m) = 64%nat) ->
  String.length (generateCryptoAddress sha256 cryptocurrency network publicKey)
  = (String.length (getAddressPrefix cryptocurrency network) + 40)%nat.
Proof.
  intro Hhex. unfold generateCryptoAddress. cbv zeta.
  rewrite !length_append, !length_substring by (rewrite Hhex; lia).
  reflexivity.
Qed.

(** X20.  For a cryptocurrency and a network of the prefix table, the
    address that the generator builds from any public key passes the
    generator's own [validateAddress], except for ADA and DOT: their
    generated addresses (45 and 41 characters) are shorter than the
    minimum that [validateAddress] asks of them (58 and 47) and are
    rejected. *)
Theorem generated_address_validates sha256 cryptocurrency network by_network
  prefix publicKey :
  (forall m, String.length (sha256 m) = 64%nat) ->
  lookup cryptocurrency prefixes = Some by_network ->
  lookup network by_network = Some prefix ->
  validateAddress cryptocurrency network
    (generateCryptoAddress sha256 cryptocurrency network publicKey)
  = negb ((cryptocurrency =? "ADA") || (cryptocurrency =? "DOT")).
Proof.
  intros Hhex Hc Hn. unfold validateAddress. cbv zeta.
  rewrite (generated_length sha256 _ _ _ Hhex).
  unfold generateCryptoAddress at 1. cbv zeta. rewrite prefix_append.
  cbn [negb]. unfold getAddressPrefix. rewrite Hc, Hn.
  revert Hc. unfold prefixes. cbn [lookup].
  repeat match goal with
         | |- context [String.eqb ?k cryptocurrency] =>
           destruct (String.eqb_spec k cryptocurrency) as [<-|_]
         end;
    try discriminate; intro H; inversion H; subst by_network; clear H;
    revert Hn; cbn [lookup];
    repeat match goal with
           | |- context [String.eqb ?k network] =>
             destruct (String.eqb_spec k network) as [<-|_]
           end;
    try discriminate; intro H; inversion H; subst prefix; reflexivity.
Qed.

Lemma generated_address_validates_witness :
  validateAddress "BTC" "BTC" (generateCryptoAddress zero_digest "BTC" "BTC" "key")
  = negb (("BTC" =? "ADA") || ("BTC" =? "DOT")).
Proof.
  apply (generated_address_validates zero_digest "BTC" "BTC"
           [("BTC", "1"); ("BTCTEST", "m")] "1" "key").
  - intro m. reflexivity.
  - reflexivity.
  - reflexivity.
Defined.

(** ** The escrow lock and the total *)




